(** * Cosmic Watch: risk analysis and alert selection

    A shallow embedding of [frontend/src/data/celestialData.js]
    ([calculateRiskScore], [calculateImpactEnergy], [getRiskTrend],
    [convertDistance], [filterByDistance], [sortByProximity],
    [getUpcomingApproaches]) and of [frontend/src/hooks/useNotifications.js]:
    the [alerts] computation, the values derived from it and the actions on
    the hook's state.

    JavaScript numbers are IEEE 754 binary64 values; they are modelled by
    Rocq's primitive floats, whose literals are rounded to the nearest
    binary64 value exactly as JavaScript's are.  Integer-valued quantities
    that the code only ever adds and compares (bucket scores, time values,
    day counts) are modelled in [Z]. *)

From Stdlib Require Import ZArith QArith Qround Qabs List String Ascii Bool Lia.
From Stdlib Require Import Floats DecimalString Sorted Permutation.
Import ListNotations.

Set Warnings "-inexact-float".
Local Open Scope string_scope.
Local Open Scope Z_scope.

(* ================================================================== *)
(** * ECMAScript numbers and their string conversions                  *)
(* ================================================================== *)

Module JS.

(** A property that is absent reads as [undefined]; [ToNumber(undefined)]
    is [NaN].  An optional numeric field is an [option float]. *)
Definition toNumber (v : option float) : float :=
  match v with
  | Some x => x
  | None => nan
  end.

(** Decimal digits of a natural number, ["0"] for zero. *)
Definition digitsOfN (n : N) : string := NilZero.string_of_uint (N.to_uint n).

Definition digitsOfZ (z : Z) : string := digitsOfN (Z.abs_N z).

(** [n] copies of the character ["0"]. *)
Fixpoint zeros (n : nat) : string :=
  match n with
  | O => ""
  | S k => String "0" (zeros k)
  end.

Definition takeS (n : nat) (s : string) : string := substring 0 n s.
Definition dropS (n : nat) (s : string) : string := substring n (length s - n) s.

(** The real number denoted by a finite binary64 value of mantissa [m] and
    exponent [e]. *)
Definition SFvalue (m : positive) (e : Z) : Q := (inject_Z (Zpos m) * Qpower 2 e)%Q.

Definition pow10 (k : Z) : Q := Qpower 10 k.

Definition Qltb (a b : Q) : bool := match (a ?= b)%Q with Lt => true | _ => false end.
Definition Qleb (a b : Q) : bool := match (a ?= b)%Q with Gt => false | _ => true end.

(** ** Number::toString, radix 10 *)

(** The least [n] with [x < 10^n], searched upwards from an under-estimate. *)
Fixpoint bump (fuel : nat) (x : Q) (n : Z) : Z :=
  match fuel with
  | O => n
  | S f => if Qleb (pow10 n) x then bump f x (n + 1) else n
  end.

Definition decimalExponent (m : positive) (e : Z) : Z :=
  let l := Z.log2 (Zpos m) + e in
  let est := if 0 <=? l then l * 30102 / 100000 else l * 30103 / 100000 in
  bump 4 (SFvalue m e) est.

(** The reals that round to the binary64 value [m * 2^e] lie between [lo] and
    [hi], bounds included exactly when [m] is even. *)
Definition roundsTo (m : positive) (e : Z) (v : Q) : bool :=
  let x := SFvalue m e in
  let up := Qpower 2 (e - 1) in
  let down := if (Zpos m =? 2 ^ 52) && (-1074 <? e) then Qpower 2 (e - 2) else up in
  if Z.even (Zpos m)
  then Qleb (x - down)%Q v && Qleb v (x + up)%Q
  else Qltb (x - down)%Q v && Qltb v (x + up)%Q.

(** The [k]-digit integer [s] for which [s * 10^(n-k)] rounds to the value
    and is closest to it, if there is one. *)
Definition candidate (m : positive) (e n k : Z) : option Z :=
  let x := SFvalue m e in
  let u := pow10 (n - k) in
  let s0 := Qfloor (x / u)%Q in
  let s1 := s0 + 1 in
  let ok s := roundsTo m e (inject_Z s * u)%Q in
  let dist s := Qabs (inject_Z s * u - x)%Q in
  match ok s0, ok s1 with
  | true, true =>
      match (dist s0 ?= dist s1)%Q with
      | Lt => Some s0
      | Gt => Some s1
      | Eq => Some (if Z.even s0 then s0 else s1)
      end
  | true, false => Some s0
  | false, true => Some s1
  | false, false => None
  end.

(** The shortest digit string: the least [k] with a candidate. *)
Fixpoint shortest (fuel : nat) (m : positive) (e n k : Z) : Z * Z :=
  match fuel with
  | O => (Qfloor (SFvalue m e / pow10 (n - k))%Q, k)
  | S f =>
      match candidate m e n k with
      | Some s => (s, k)
      | None => shortest f m e n (k + 1)
      end
  end.

Definition formatShortest (s n : Z) : string :=
  let d := digitsOfZ s in
  let k := Z.of_nat (length d) in
  if (k <=? n) && (n <=? 21) then d ++ zeros (Z.to_nat (n - k))
  else if (0 <? n) && (n <=? 21) then
    takeS (Z.to_nat n) d ++ "." ++ dropS (Z.to_nat n) d
  else if (-6 <? n) && (n <=? 0) then "0." ++ zeros (Z.to_nat (- n)) ++ d
  else
    let ex := n - 1 in
    let sg := if ex <? 0 then "-" else "+" in
    if k =? 1 then d ++ "e" ++ sg ++ digitsOfZ ex
    else takeS 1 d ++ "." ++ dropS 1 d ++ "e" ++ sg ++ digitsOfZ ex.

Definition Number_toString (x : float) : string :=
  match Prim2SF x with
  | S754_nan => "NaN"
  | S754_zero _ => "0"
  | S754_infinity s => if s then "-Infinity" else "Infinity"
  | S754_finite sg m e =>
      let n := decimalExponent m e in
      let '(s, k) := shortest 17 m e n 1 in
      let '(s, n) := if s =? 10 ^ k then (1, n + 1) else (s, n) in
      (if sg then "-" else "") ++ formatShortest s n
  end.

(** ** Number.prototype.toFixed, for a digit count within 0..100 *)

(** The integer [n] for which [n / 10^f] is closest to the value, the larger
    one of two. *)
Definition roundScaled (m : positive) (e : Z) (f : nat) : Z :=
  Qfloor (SFvalue m e * pow10 (Z.of_nat f) + (1 # 2))%Q.

Definition fixedDigits (n : Z) (f : nat) : string :=
  let d := digitsOfZ n in
  match f with
  | O => d
  | _ =>
      let d := zeros (f + 1 - length d) ++ d in
      let k := length d in
      takeS (k - f) d ++ "." ++ dropS (k - f) d
  end.

Definition toFixed (x : float) (f : nat) : string :=
  match Prim2SF x with
  | S754_finite sg m e =>
      if (1e21 <=? abs x)%float
      then Number_toString x
      else (if sg then "-" else "") ++ fixedDigits (roundScaled m e f) f
  | S754_zero _ => fixedDigits 0 f
  | _ => Number_toString x
  end.

(** ** Math.round, Math.abs *)

(** The binary64 value of an integer; exact below [2^53] in magnitude, which
    covers the scores, sums of scores and list lengths converted here. *)
Definition ofZ (z : Z) : float :=
  let a := of_uint63 (Uint63.of_Z (Z.abs z)) in
  if z <? 0 then (- a)%float else a.

(** The nearest integer, the larger of two; a value of magnitude at least
    [2^52] is integral already, and a negative value that rounds to zero
    gives [-0]. *)
Definition Math_round (x : float) : float :=
  match Prim2SF x with
  | S754_finite sg m e =>
      if 0 <=? e then x
      else
        let n := Qfloor ((if sg then - SFvalue m e else SFvalue m e) + (1 # 2))%Q in
        if n =? 0 then (if sg then (-0)%float else 0%float) else ofZ n
  | _ => x
  end.

Definition Math_abs (x : float) : float := abs x.

End JS.

(* ================================================================== *)
(** * Completions: a call returns normally or throws                   *)
(* ================================================================== *)

Inductive Exn : Set :=
| TypeError.

Inductive Completion (A : Type) : Type :=
| Normal (a : A)
| Throw (e : Exn).

Arguments Normal {A} a.
Arguments Throw {A} e.

Definition bind {A B : Type} (c : Completion A) (k : A -> Completion B)
  : Completion B :=
  match c with
  | Normal a => k a
  | Throw e => Throw e
  end.

Notation "x <- c ;; k" := (bind c (fun x => k))
  (at level 61, c at next level, right associativity).
Notation "' p <- c ;; k" := (bind c (fun x => let 'p := x in k))
  (at level 61, p pattern, c at next level, right associativity).

(** [Array.prototype.map] with a callback that may throw: the first throw
    ends the traversal. *)
Fixpoint mapM {A B : Type} (f : A -> Completion B) (l : list A)
  : Completion (list B) :=
  match l with
  | [] => Normal []
  | x :: l' => y <- f x ;; ys <- mapM f l' ;; Normal (y :: ys)
  end.

(** [Array.prototype.reduce] with a callback that may throw. *)
Fixpoint reduceM {A B : Type} (f : B -> A -> Completion B) (l : list A) (acc : B)
  : Completion B :=
  match l with
  | [] => Normal acc
  | x :: l' => acc' <- f acc x ;; reduceM f l' acc'
  end.

(** [v.toFixed(f)] on a property that may be absent: a method call on
    [undefined] throws a [TypeError]. *)
Definition callToFixed (v : option float) (f : nat) : Completion string :=
  match v with
  | Some x => Normal (JS.toFixed x f)
  | None => Throw TypeError
  end.

(* ================================================================== *)
(** * Built-ins whose result ECMAScript leaves to the implementation   *)
(* ================================================================== *)

(** [Math.pow] is implementation-approximated, and the [Date] constructor
    parses strings outside the ISO format as the implementation likes.  A
    date is its time value, in milliseconds since the epoch, or [None] when
    the time value is [NaN] (an invalid date). *)
Class Host : Type := {
  Math_pow : float -> float -> float;
  Date_parse : string -> option Z
}.

(* ================================================================== *)
(** * Data model                                                       *)
(* ================================================================== *)

Record CelestialBody : Type := {
  id : string;
  name : string;
  distanceFromEarth : option float;
  velocity : option float;
  radius : option float;
  color : string;
  closeApproachDate : option string
}.

Inductive RiskLevel : Set := LOW | MEDIUM | HIGH.

Record Factor : Type := {
  f_name : string;
  f_score : Z;
  f_max : Z;
  f_percentage : float;
  f_explanation : string
}.

Record Details : Type := {
  d_distance : option float;
  d_velocity : option float;
  d_diameter : float;
  d_impactEnergy : string
}.

Record RiskAssessment : Type := {
  score : Z;
  level : RiskLevel;
  r_color : string;
  explanation : string;
  factors : list Factor;
  details : option Details
}.

Inductive Trend : Set := ABOVE_AVERAGE | BELOW_AVERAGE | AVERAGE.

Record RiskTrend : Type := {
  current : Z;
  average : float;
  difference : float;
  trend : Trend;
  message : string
}.

Definition percentageOf (s m : Z) : float := (JS.ofZ s / JS.ofZ m * 100)%float.

(* ================================================================== *)
(** * celestialData.js: the risk analysis system                       *)
(* ================================================================== *)

Section RiskAnalysis.
Context {host : Host}.

Definition Math_PI : float := 3.141592653589793%float.

(** [calculateImpactEnergy(radius, velocity)].  [velocity] is a number when
    the call is reached; [radius] may be [undefined]. *)
Definition calculateImpactEnergy (radius : option float) (velocity : float) : string :=
  let radiusMeters := (JS.toNumber radius / 8 * 1000)%float in
  let volumeCubicMeters := (4 / 3 * Math_PI * Math_pow radiusMeters 3)%float in
  let densityKgPerCubicMeter := 2500%float in
  let massKg := (volumeCubicMeters * densityKgPerCubicMeter)%float in
  let velocityMs := (velocity * 1000)%float in
  let energyJoules := (0.5 * massKg * Math_pow velocityMs 2)%float in
  let megatons := (energyJoules / (4.184 * Math_pow 10 15))%float in
  if (megatons <? 0.001)%float then
    JS.toFixed (megatons * 1000)%float 2 ++ " kilotons"
  else if (megatons <? 1)%float then
    JS.toFixed megatons 3 ++ " megatons"
  else
    JS.toFixed megatons 1 ++ " megatons".

(** FACTOR 1: distance risk, the bucket score and its explanation. *)
Definition distanceRisk (body : CelestialBody) : Completion (Z * string) :=
  let d := JS.toNumber (distanceFromEarth body) in
  if (d <? 0.5)%float then
    s <- callToFixed (distanceFromEarth body) 2 ;;
    Normal (40, "CRITICAL proximity at " ++ s ++ " M km - Extremely close approach requiring immediate attention")
  else if (d <? 5)%float then
    s <- callToFixed (distanceFromEarth body) 2 ;;
    Normal (30, "HIGH proximity at " ++ s ++ " M km - Close monitoring zone, potential near-miss")
  else if (d <? 50)%float then
    s <- callToFixed (distanceFromEarth body) 2 ;;
    Normal (20, "MEDIUM proximity at " ++ s ++ " M km - Standard tracking distance")
  else
    s <- callToFixed (distanceFromEarth body) 2 ;;
    Normal (10, "LOW proximity at " ++ s ++ " M km - Distant object, minimal immediate concern").

(** FACTOR 2: velocity risk. *)
Definition velocityRisk (body : CelestialBody) : Completion (Z * string) :=
  let v := JS.toNumber (velocity body) in
  if (35 <? v)%float then
    s <- callToFixed (velocity body) 1 ;;
    Normal (35, "CRITICAL velocity at " ++ s ++ " km/s - Extremely fast approach increases impact energy exponentially (KE = ½mv²)")
  else if (30 <? v)%float then
    s <- callToFixed (velocity body) 1 ;;
    Normal (25, "HIGH velocity at " ++ s ++ " km/s - Fast approach significantly increases kinetic energy and damage potential")
  else if (25 <? v)%float then
    s <- callToFixed (velocity body) 1 ;;
    Normal (15, "MEDIUM velocity at " ++ s ++ " km/s - Moderate speed within typical asteroid range")
  else
    s <- callToFixed (velocity body) 1 ;;
    Normal (5, "LOW velocity at " ++ s ++ " km/s - Relatively slow approach reduces impact energy").

(** FACTOR 3: size risk, on the diameter [body.radius * 2]. *)
Definition estimatedDiameterOf (body : CelestialBody) : float :=
  (JS.toNumber (radius body) * 2)%float.

Definition sizeRisk (estimatedDiameter : float) : Z * string :=
  let m := JS.toFixed (estimatedDiameter * 1000)%float 0 in
  if (0.25 <? estimatedDiameter)%float then
    (25, "LARGE object (~" ++ m ++ "m diameter) - City-scale destruction potential, mass extinction risk")
  else if (0.15 <? estimatedDiameter)%float then
    (18, "MEDIUM object (~" ++ m ++ "m diameter) - Regional impact potential, Tunguska-scale event")
  else if (0.08 <? estimatedDiameter)%float then
    (10, "SMALL object (~" ++ m ++ "m diameter) - Local impact, most would burn up in atmosphere")
  else
    (5, "TINY object (~" ++ m ++ "m diameter) - Minimal threat, likely to disintegrate on entry").

(** Risk level, colour and overall explanation of a total score. *)
Definition classifyScore (score : Z) : RiskLevel * string * string :=
  if 66 <=? score then
    (HIGH, "#ff006e", "⚠️ HIGH RISK: This object requires immediate monitoring and potential deflection planning. Combination of close proximity, high velocity, and/or significant size creates substantial threat.")
  else if 31 <=? score then
    (MEDIUM, "#ffbe0b", "⚡ MEDIUM RISK: This object warrants continued observation and tracking. While not immediately threatening, certain factors elevate it above routine monitoring.")
  else
    (LOW, "#00f0ff", "✓ LOW RISK: This object poses minimal threat based on current trajectory and characteristics. Standard monitoring protocols apply.").

(** [calculateRiskScore(body)]; [None] is a [null] or [undefined] body.  The
    running [score] is a sum of integers, which [Math.round] leaves as it
    is. *)
Definition calculateRiskScore (body : option CelestialBody) : Completion RiskAssessment :=
  match body with
  | None =>
      Normal {| score := 0; level := LOW; r_color := "#00f0ff";
                explanation := "No object selected"; factors := [];
                details := None |}
  | Some body =>
      let score := 0 in
      let factors : list Factor := [] in
      '(distanceScore, distanceExplanation) <- distanceRisk body ;;
      let score := score + distanceScore in
      let factors := (factors ++ [{| f_name := "Distance"; f_score := distanceScore;
                                    f_max := 40;
                                    f_percentage := percentageOf distanceScore 40;
                                    f_explanation := distanceExplanation |}])%list in
      '(velocityScore, velocityExplanation) <- velocityRisk body ;;
      let score := score + velocityScore in
      let factors := (factors ++ [{| f_name := "Velocity"; f_score := velocityScore;
                                    f_max := 35;
                                    f_percentage := percentageOf velocityScore 35;
                                    f_explanation := velocityExplanation |}])%list in
      let estimatedDiameter := estimatedDiameterOf body in
      let '(sizeScore, sizeExplanation) := sizeRisk estimatedDiameter in
      let score := score + sizeScore in
      let factors := (factors ++ [{| f_name := "Size"; f_score := sizeScore;
                                    f_max := 25;
                                    f_percentage := percentageOf sizeScore 25;
                                    f_explanation := sizeExplanation |}])%list in
      let '(level, color, overallExplanation) := classifyScore score in
      Normal {| score := score; level := level; r_color := color;
                explanation := overallExplanation; factors := factors;
                details := Some {| d_distance := distanceFromEarth body;
                                   d_velocity := velocity body;
                                   d_diameter := estimatedDiameter;
                                   d_impactEnergy :=
                                     calculateImpactEnergy (radius body)
                                       (JS.toNumber (velocity body)) |} |}
  end.

(** [getRiskTrend(body, allBodies)]. *)
Definition getRiskTrend (body : option CelestialBody) (allBodies : list CelestialBody)
  : Completion RiskTrend :=
  currentRisk <- calculateRiskScore body ;;
  total <- reduceM (fun sum b => r <- calculateRiskScore (Some b) ;; Normal (sum + score r))
             allBodies 0 ;;
  let avgScore := (JS.ofZ total / JS.ofZ (Z.of_nat (List.length allBodies)))%float in
  let difference := (JS.ofZ (score currentRisk) - avgScore)%float in
  Normal {| current := score currentRisk;
            average := JS.Math_round avgScore;
            difference := JS.Math_round difference;
            trend := if (15 <? difference)%float then ABOVE_AVERAGE
                     else if (difference <? -15)%float then BELOW_AVERAGE
                     else AVERAGE;
            message :=
              if (15 <? difference)%float then
                JS.Number_toString (JS.Math_abs (JS.Math_round difference))
                ++ " points above fleet average - Priority monitoring"
              else if (difference <? -15)%float then
                JS.Number_toString (JS.Math_abs (JS.Math_round difference))
                ++ " points below fleet average - Routine tracking"
              else "Within average risk range for tracked objects" |}.

End RiskAnalysis.

(** The tracked asteroids of [celestialBodies]. *)
Definition mkBody (i n : string) (d v r : float) (c date : string) : CelestialBody :=
  {| id := i; name := n; distanceFromEarth := Some d; velocity := Some v;
     radius := Some r; color := c; closeApproachDate := Some date |}.

Definition bennu := mkBody "asteroid-bennu" "Bennu (101955)" 18.6 27.7 0.12 "#8B8680" "2026-02-15".
Definition apophis := mkBody "asteroid-apophis" "Apophis (99942)" 0.31 30.7 0.08 "#A89F91" "2026-03-01".
Definition ryugu := mkBody "asteroid-ryugu" "Ryugu (162173)" 39.7 24.4 0.11 "#6E6A5B" "2026-03-20".
Definition eros := mkBody "asteroid-eros" "Eros (433)" 68.5 24.36 0.17 "#9D9081" "2026-04-10".
Definition itokawa := mkBody "asteroid-itokawa" "Itokawa (25143)" 0.52 31.2 0.06 "#B5ADA3" "2026-02-28".
Definition vesta := mkBody "asteroid-vesta" "Vesta (4)" 203.8 19.34 0.28 "#C4BDB2" "2026-05-15".
Definition didymos := mkBody "asteroid-didymos" "Didymos (65803)" 45.9 23.3 0.09 "#7D7568" "2026-04-05".
Definition psyche := mkBody "asteroid-psyche" "Psyche (16)" 229.0 18.95 0.25 "#998B7D" "2026-06-01".
Definition pallas := mkBody "asteroid-pallas" "Pallas (2)" 264.9 17.65 0.27 "#ACA59A" "2026-06-20".
Definition ceres := mkBody "asteroid-ceres" "Ceres (1)" 264.1 17.88 0.3 "#D4CFC7" "2026-06-25".
Definition asteroid2023xy := mkBody "asteroid-2023xy" "Asteroid 2023 XY" 5.6 29.4 0.07 "#8F8679" "2026-02-20".
Definition asteroid2024ab := mkBody "asteroid-2024ab" "Asteroid 2024 AB" 23.2 26.8 0.13 "#A39A8D" "2026-03-10".

Definition celestialBodies : list CelestialBody :=
  [bennu; apophis; ryugu; eros; itokawa; vesta; didymos; psyche; pallas; ceres;
   asteroid2023xy; asteroid2024ab].

(* ================================================================== *)
(** * Dates                                                            *)
(* ================================================================== *)

Module Date.

(** A [Date] object is its time value: integer milliseconds since the epoch,
    or [None] for [NaN]. *)
Definition t : Set := option Z.

Definition maxTime : Z := 8640000000000000.

(** [new Date(number)] clips the time value to the representable range. *)
Definition TimeClip (v : Z) : t :=
  if Z.abs v <=? maxTime then Some v else None.

(** Relational operators on dates compare the time values; a comparison with
    [NaN] is false. *)
Definition gtb (a b : t) : bool :=
  match a, b with
  | Some x, Some y => y <? x
  | _, _ => false
  end.

Definition leb (a b : t) : bool :=
  match a, b with
  | Some x, Some y => x <=? y
  | _, _ => false
  end.

(** [a - b], [NaN] when a time value is. *)
Definition sub (a b : t) : option Z :=
  match a, b with
  | Some x, Some y => Some (x - y)
  | _, _ => None
  end.

Definition pad (w : nat) (n : Z) : string :=
  let d := JS.digitsOfZ n in JS.zeros (w - length d) ++ d.

(** Year, month and day of a day number counted from the epoch, in the
    proleptic Gregorian calendar. *)
Definition civil (days : Z) : Z * Z * Z :=
  let z := days + 719468 in
  let era := z / 146097 in
  let doe := z - era * 146097 in
  let yoe := (doe - doe / 1460 + doe / 36524 - doe / 146096) / 365 in
  let doy := doe - (365 * yoe + yoe / 4 - yoe / 100) in
  let mp := (5 * doy + 2) / 153 in
  let d := doy - (153 * mp + 2) / 5 + 1 in
  let m := if mp <? 10 then mp + 3 else mp - 9 in
  let y := yoe + era * 400 + (if m <=? 2 then 1 else 0) in
  (y, m, d).

(** [toISOString()] of a valid date. *)
Definition toISOString (v : Z) : string :=
  let '(y, m, d) := civil (v / 86400000) in
  let ms := v mod 86400000 in
  let year := if (0 <=? y) && (y <=? 9999) then pad 4 y
              else (if y <? 0 then "-" else "+") ++ pad 6 y in
  year ++ "-" ++ pad 2 m ++ "-" ++ pad 2 d ++ "T"
  ++ pad 2 (ms / 3600000) ++ ":" ++ pad 2 (ms / 60000 mod 60) ++ ":"
  ++ pad 2 (ms / 1000 mod 60) ++ "." ++ pad 3 (ms mod 1000) ++ "Z".

End Date.

(* ================================================================== *)
(** * Array.prototype.sort and Array.prototype.includes                *)
(* ================================================================== *)

Section ArraySort.
Context {A : Type}.
Variable comparefn : A -> A -> option Z.

(** A comparator result that is [NaN] counts as [+0]. *)
Definition sortCompare (x y : A) : Z :=
  match comparefn x y with
  | Some v => v
  | None => 0
  end.

Fixpoint insertSorted (x : A) (l : list A) : list A :=
  match l with
  | [] => [x]
  | y :: l' => if sortCompare x y <=? 0 then x :: l else y :: insertSorted x l'
  end.

(** The sort is stable; with a consistent comparator every conforming
    implementation returns the list this insertion sort returns. *)
Definition Array_sort (l : list A) : list A := fold_right insertSorted [] l.

End ArraySort.

Definition includes (l : list string) (x : string) : bool :=
  existsb (String.eqb x) l.

(* ================================================================== *)
(** * useNotifications.js: the alerts of the notification hook         *)
(* ================================================================== *)

Record Alert : Type := {
  a_id : string;
  objectId : string;
  objectName : string;
  a_closeApproachDate : option string;
  approachDate : Date.t;
  daysUntilApproach : option Z;
  a_distanceFromEarth : option float;
  a_velocity : option float;
  riskLevel : RiskLevel;
  riskScore : Z;
  riskColor : string;
  a_color : string;
  isNew : bool;
  createdAt : string
}.

Definition ALERT_DAYS_THRESHOLD : Z := 30.
Definition ALERT_DISTANCE_THRESHOLD : float := 10%float.

(** The object [{ HIGH: 3, MEDIUM: 2, LOW: 1 }]. *)
Definition riskOrder (l : RiskLevel) : Z :=
  match l with
  | HIGH => 3
  | MEDIUM => 2
  | LOW => 1
  end.

(** The comparator given to [sort]. *)
Definition compareAlerts (a b : Alert) : option Z :=
  let riskDiff := riskOrder (riskLevel b) - riskOrder (riskLevel a) in
  if negb (riskDiff =? 0) then Some riskDiff
  else
    match daysUntilApproach a, daysUntilApproach b with
    | Some x, Some y => Some (x - y)
    | _, _ => None
    end.

Section Notifications.
Context {host : Host}.

(** [new Date(body.closeApproachDate)]; [new Date(undefined)] is invalid. *)
Definition newDate (s : option string) : Date.t :=
  match s with
  | Some s => Date_parse s
  | None => None
  end.

(** [!body.closeApproachDate]: an absent or empty string is falsy. *)
Definition noCloseApproachDate (body : CelestialBody) : bool :=
  match closeApproachDate body with
  | None => true
  | Some s => String.eqb s ""
  end.

(** [Math.ceil(x / (1000 * 60 * 60 * 24))] of an integer [x].  The quotients
    the hook produces are at most 30, where binary64 division followed by
    [Math.ceil] is the exact ceiling. *)
Definition ceilDays (x : option Z) : option Z :=
  match x with
  | Some d => Some (- ((- d) / (1000 * 60 * 60 * 24)))
  | None => None
  end.

Section Alerts.
Variable now : Z.
Variable dismissedIds : list string.
Variable lastViewedTime : option Date.t.

Definition thirtyDaysFromNow : Date.t :=
  Date.TimeClip (now + ALERT_DAYS_THRESHOLD * 24 * 60 * 60 * 1000).

(** The callback given to [filter]. *)
Definition alertFilter (body : CelestialBody) : bool :=
  if noCloseApproachDate body then false
  else
    let approachDate := newDate (closeApproachDate body) in
    let isFutureDate := Date.gtb approachDate (Some now) in
    let isWithinThirtyDays := Date.leb approachDate thirtyDaysFromNow in
    let isCloseProximity :=
      (JS.toNumber (distanceFromEarth body) <? ALERT_DISTANCE_THRESHOLD)%float in
    let isNotDismissed := negb (includes dismissedIds (id body)) in
    isFutureDate && isWithinThirtyDays && isCloseProximity && isNotDismissed.

(** The callback given to [map]. *)
Definition toAlert (body : CelestialBody) : Completion Alert :=
  let approachDate := newDate (closeApproachDate body) in
  riskData <- calculateRiskScore (Some body) ;;
  let daysUntilApproach := ceilDays (Date.sub approachDate (Some now)) in
  let isNew :=
    match lastViewedTime with
    | None => true
    | Some viewed => Date.gtb approachDate viewed
    end in
  Normal {| a_id := "alert-" ++ id body;
            objectId := id body;
            objectName := name body;
            a_closeApproachDate := closeApproachDate body;
            approachDate := approachDate;
            daysUntilApproach := daysUntilApproach;
            a_distanceFromEarth := distanceFromEarth body;
            a_velocity := velocity body;
            riskLevel := level riskData;
            riskScore := score riskData;
            riskColor := r_color riskData;
            a_color := color body;
            isNew := isNew;
            createdAt := Date.toISOString now |}.

(** The [alerts] memo: filter, map, sort. *)
Definition alerts (celestialBodies : list CelestialBody) : Completion (list Alert) :=
  mapped <- mapM toAlert (filter alertFilter celestialBodies) ;;
  Normal (Array_sort compareAlerts mapped).

End Alerts.
End Notifications.

(* ================================================================== *)
(** * A host to run the model on                                       *)
(* ================================================================== *)

(** Powers by repeated multiplication, for a small natural exponent, and
    dates in the ISO date-only form [YYYY-MM-DD], read as UTC midnight. *)
Module SampleHost.

Fixpoint powNat (x : float) (n : nat) : float :=
  match n with
  | O => 1%float
  | S k => (x * powNat x k)%float
  end.

Definition natOfFloat (y : float) : option nat :=
  match Prim2SF y with
  | S754_zero _ => Some O
  | S754_finite false m e =>
      let q := JS.SFvalue m e in
      if Qeq_bool (inject_Z (Qfloor q)) q && (Qfloor q <=? 1100)
      then Some (Z.to_nat (Qfloor q)) else None
  | _ => None
  end.

Definition pow (x y : float) : float :=
  match natOfFloat y with
  | Some n => powNat x n
  | None => nan
  end.

Definition digitVal (c : ascii) : option Z :=
  let n := Z.of_nat (nat_of_ascii c) in
  if (48 <=? n) && (n <=? 57) then Some (n - 48) else None.

Fixpoint parseDigits (s : string) (acc : Z) : option Z :=
  match s with
  | EmptyString => Some acc
  | String c s' =>
      match digitVal c with
      | Some d => parseDigits s' (10 * acc + d)
      | None => None
      end
  end.

Definition isLeap (y : Z) : bool :=
  ((y mod 4 =? 0) && negb (y mod 100 =? 0)) || (y mod 400 =? 0).

Definition daysInMonth (y m : Z) : Z :=
  if m =? 2 then (if isLeap y then 29 else 28)
  else if (m =? 4) || (m =? 6) || (m =? 9) || (m =? 11) then 30
  else 31.

Definition daysFromCivil (y m d : Z) : Z :=
  let y := if m <=? 2 then y - 1 else y in
  let era := y / 400 in
  let yoe := y - era * 400 in
  let doy := (153 * (if 2 <? m then m - 3 else m + 9) + 2) / 5 + d - 1 in
  let doe := yoe * 365 + yoe / 4 - yoe / 100 + doy in
  era * 146097 + doe - 719468.

Definition parseISODate (s : string) : option Z :=
  if (length s =? 10)%nat && String.eqb (substring 4 1 s) "-"
     && String.eqb (substring 7 1 s) "-" then
    match parseDigits (substring 0 4 s) 0, parseDigits (substring 5 2 s) 0,
          parseDigits (substring 8 2 s) 0 with
    | Some y, Some m, Some d =>
        if (1 <=? m) && (m <=? 12) && (1 <=? d) && (d <=? daysInMonth y m)
        then Some (daysFromCivil y m d * 86400000) else None
    | _, _, _ => None
    end
  else None.

Definition host : Host := {| Math_pow := pow; Date_parse := parseISODate |}.

End SampleHost.

(* ================================================================== *)
(** * Vocabulary of the statements                                     *)
(* ================================================================== *)

(** The bucket scores as functions of the metric. *)
Definition distanceBucket (d : float) : Z :=
  if (d <? 0.5)%float then 40
  else if (d <? 5)%float then 30
  else if (d <? 50)%float then 20
  else 10.

Definition velocityBucket (v : float) : Z :=
  if (35 <? v)%float then 35
  else if (30 <? v)%float then 25
  else if (25 <? v)%float then 15
  else 5.

Definition sizeBucket (diameter : float) : Z :=
  if (0.25 <? diameter)%float then 25
  else if (0.15 <? diameter)%float then 18
  else if (0.08 <? diameter)%float then 10
  else 5.

(** [sum(factors[i].score)]. *)
Definition sumScores (l : list Factor) : Z :=
  fold_right (fun f acc => f_score f + acc) 0 l.

Definition levelOf (score : Z) : RiskLevel := fst (fst (classifyScore score)).

(** [haystack.includes(needle)] on strings. *)
Definition containsText (haystack needle : string) : bool :=
  match index 0 needle haystack with
  | Some _ => true
  | None => false
  end.

(** The score of the [i]-th factor of an assessment. *)
Definition factorScore (r : RiskAssessment) (i : nat) : Z :=
  nth i (map f_score (factors r)) 0.

(** [b1] is at most as far as [b2], the other two metrics being the same. *)
Definition closerThan (b1 b2 : CelestialBody) : Prop :=
  velocity b1 = velocity b2 /\ radius b1 = radius b2 /\
  exists d1 d2, distanceFromEarth b1 = Some d1 /\ distanceFromEarth b2 = Some d2 /\
                (d1 <=? d2)%float = true.

(** [b1] is at least as fast as [b2], the other two metrics being the same. *)
Definition fasterThan (b1 b2 : CelestialBody) : Prop :=
  distanceFromEarth b1 = distanceFromEarth b2 /\ radius b1 = radius b2 /\
  exists v1 v2, velocity b1 = Some v1 /\ velocity b2 = Some v2 /\
                (v2 <=? v1)%float = true.

(** [b1] is at least as large as [b2], the other two metrics being the same. *)
Definition largerThan (b1 b2 : CelestialBody) : Prop :=
  distanceFromEarth b1 = distanceFromEarth b2 /\ velocity b1 = velocity b2 /\
  exists x1 x2, radius b1 = Some x1 /\ radius b2 = Some x2 /\
                (x2 <=? x1)%float = true.

(** Twice a binary64 value, on its specification: the exponent of a normal
    number goes up by one, to infinity past the largest; the mantissa of a
    subnormal number doubles. *)
Definition SFdouble (x : spec_float) : spec_float :=
  match x with
  | S754_finite s m e =>
      if Zpos (digits2_pos m) =? prec then
        if e + 1 <=? 971 then S754_finite s m (e + 1) else S754_infinity s
      else S754_finite s m~0 e
  | _ => x
  end.

Definition thirtyDays : Z := 30 * 24 * 60 * 60 * 1000.

(** The time values from which thirty days on is still a time value. *)
Definition clockInRange (now : Z) : Prop :=
  - Date.maxTime <= now <= Date.maxTime - thirtyDays.

(** [t] is after [now] and at most thirty days after it. *)
Definition withinNextThirtyDays (now t : Z) : Prop :=
  now < t <= now + thirtyDays.

(** The order of the alerts list: higher risk first, and within a level the
    approach that is fewer days away first. *)
Definition alertBefore (a b : Alert) : Prop :=
  exists x y, daysUntilApproach a = Some x /\ daysUntilApproach b = Some y /\
              (riskOrder (riskLevel b) < riskOrder (riskLevel a) \/
               (riskLevel a = riskLevel b /\ x <= y)).

Definition hasDays (a : Alert) : Prop := exists x, daysUntilApproach a = Some x.

(** The sum of the scores of a list of assessments. *)
Definition totalScore (rs : list RiskAssessment) : Z :=
  fold_left (fun sum r => sum + score r) rs 0.

(** Sample inputs: Apophis with other metrics, and without a radius. *)
Definition apophisWith (d v x : float) : CelestialBody :=
  mkBody "asteroid-apophis" "Apophis (99942)" d v x "#A89F91" "2026-03-01".

Definition apophisNoRadius : CelestialBody :=
  {| id := "asteroid-apophis"; name := "Apophis (99942)";
     distanceFromEarth := Some 0.31%float; velocity := Some 30.7%float;
     radius := None; color := "#A89F91"; closeApproachDate := Some "2026-03-01" |}.

(** 2026-02-10T12:30:45.123Z. *)
Definition sampleNow : Z := 1770726645123.


(* ================================================================== *)
(** * celestialData.js: units, distance filter, proximity order        *)
(* ================================================================== *)

(** The table [{ km: 1, LD: 384400, AU: 149597870.7 }].  Any other key
    reads as [undefined] or as an inherited method, and both are [NaN] as
    numbers. *)
Definition conversions (unit : string) : option float :=
  if String.eqb unit "km" then Some 1%float
  else if String.eqb unit "LD" then Some 384400%float
  else if String.eqb unit "AU" then Some 149597870.7%float
  else None.

(** [convertDistance(km, unit)]. *)
Definition convertDistance (km : float) (unit : string) : float :=
  (km * 1000000 / JS.toNumber (conversions unit))%float.

(** The constant [maxDistanceKm] of [filterByDistance]. *)
Definition maxDistanceKm (maxDistance : float) (unit : string) : float :=
  (maxDistance * (if String.eqb unit "LD" then 384400
                  else if String.eqb unit "AU" then 149597870.7
                  else 1000000) / 1000000)%float.

(** [filterByDistance(bodies, maxDistance, unit)]. *)
Definition filterByDistance (bodies : list CelestialBody) (maxDistance : float)
    (unit : string) : list CelestialBody :=
  filter (fun body =>
            (JS.toNumber (distanceFromEarth body) <=? maxDistanceKm maxDistance unit)%float)
    bodies.

(** What [sort] reads off the number a comparator returns: its sign, and
    [NaN] as such. *)
Definition comparatorSign (v : float) : option Z :=
  if (v <? 0)%float then Some (-1)
  else if (0 <? v)%float then Some 1
  else if (v =? v)%float then Some 0
  else None.

(** The comparator [(a, b) => a.distanceFromEarth - b.distanceFromEarth]. *)
Definition proximityCompare (a b : CelestialBody) : option Z :=
  comparatorSign (JS.toNumber (distanceFromEarth a)
                  - JS.toNumber (distanceFromEarth b))%float.

(** [sortByProximity(bodies)]: a sorted copy of the list. *)
Definition sortByProximity (bodies : list CelestialBody) : list CelestialBody :=
  Array_sort proximityCompare bodies.

(** A body with the [approachDate] that [getUpcomingApproaches] adds. *)
Record Approach : Type := {
  ap_body : CelestialBody;
  ap_approachDate : Date.t
}.

(** The comparator [(a, b) => a.approachDate - b.approachDate]. *)
Definition approachCompare (a b : Approach) : option Z :=
  Date.sub (ap_approachDate a) (ap_approachDate b).

Section UpcomingApproaches.
Context {host : Host}.

(** [getUpcomingApproaches(bodies)], at the current time [now].  The
    comparator subtracts two time values; the sort reads its sign. *)
Definition getUpcomingApproaches (now : Z) (bodies : list CelestialBody)
  : list Approach :=
  Array_sort approachCompare
    (filter (fun body => Date.gtb (ap_approachDate body) (Some now))
       (map (fun body => {| ap_body := body;
                            ap_approachDate := newDate (closeApproachDate body) |})
          (filter (fun body => negb (noCloseApproachDate body)) bodies))).

End UpcomingApproaches.

(* ================================================================== *)
(** * useNotifications.js: state, actions and derived values           *)
(* ================================================================== *)

(** [localStorage], from keys to stored strings. *)
Definition Storage : Type := string -> option string.

Definition setItem (key value : string) (s : Storage) : Storage :=
  fun k => if String.eqb k key then Some value else s k.

Definition removeItem (key : string) (s : Storage) : Storage :=
  fun k => if String.eqb k key then None else s k.

Definition charString (n : nat) : string := String (ascii_of_nat n) EmptyString.

Definition hexDigit (n : nat) : string :=
  substring n 1 "0123456789abcdef".

(** [JSON.stringify] of a string: quotes around it, with the quote, the
    backslash and the control characters escaped. *)
Definition quoteJSONChar (c : ascii) : string :=
  let n := nat_of_ascii c in
  let bs := charString 92 in
  if (n =? 8)%nat then bs ++ "b"
  else if (n =? 9)%nat then bs ++ "t"
  else if (n =? 10)%nat then bs ++ "n"
  else if (n =? 12)%nat then bs ++ "f"
  else if (n =? 13)%nat then bs ++ "r"
  else if (n =? 34)%nat then bs ++ charString 34
  else if (n =? 92)%nat then bs ++ bs
  else if (n <? 32)%nat then bs ++ "u00" ++ hexDigit (n / 16) ++ hexDigit (n mod 16)
  else String c EmptyString.

Fixpoint quoteJSONChars (s : string) : string :=
  match s with
  | EmptyString => EmptyString
  | String c s' => quoteJSONChar c ++ quoteJSONChars s'
  end.

Definition quoteJSONString (s : string) : string :=
  charString 34 ++ quoteJSONChars s ++ charString 34.

(** [JSON.stringify] of an array of strings. *)
Definition JSON_stringify (l : list string) : string :=
  "[" ++ String.concat "," (map quoteJSONString l) ++ "]".

(** [s.replace(pattern, replacement)] with a string pattern and a
    replacement free of [$]: the first occurrence is replaced. *)
Definition String_replace (s pattern replacement : string) : string :=
  match index 0 pattern s with
  | Some i =>
      substring 0 i s ++ replacement
      ++ substring (i + length pattern) (length s - (i + length pattern)) s
  | None => s
  end.

(** The state the hook keeps between renders. *)
Record HookState : Type := {
  st_dismissedIds : list string;
  st_hasViewedPanel : bool;
  st_lastViewedTime : option Date.t;
  st_localStorage : Storage
}.

(** [markAsViewed()], called at the time [now]. *)
Definition markAsViewed (now : Z) (st : HookState) : HookState :=
  {| st_dismissedIds := st_dismissedIds st;
     st_hasViewedPanel := true;
     st_lastViewedTime := Some (Some now);
     st_localStorage :=
       setItem "notificationsLastViewed" (Date.toISOString now) (st_localStorage st) |}.

(** [dismissNotification(alertId)]. *)
Definition dismissNotification (alertId : string) (st : HookState) : HookState :=
  let objectId := String_replace alertId "alert-" "" in
  let updated := (st_dismissedIds st ++ [objectId])%list in
  {| st_dismissedIds := updated;
     st_hasViewedPanel := st_hasViewedPanel st;
     st_lastViewedTime := st_lastViewedTime st;
     st_localStorage :=
       setItem "dismissedNotifications" (JSON_stringify updated) (st_localStorage st) |}.

(** [clearDismissed()]. *)
Definition clearDismissed (st : HookState) : HookState :=
  {| st_dismissedIds := [];
     st_hasViewedPanel := st_hasViewedPanel st;
     st_lastViewedTime := st_lastViewedTime st;
     st_localStorage := removeItem "dismissedNotifications" (st_localStorage st) |}.

(** [resetNotifications()]. *)
Definition resetNotifications (st : HookState) : HookState :=
  {| st_dismissedIds := [];
     st_hasViewedPanel := false;
     st_lastViewedTime := None;
     st_localStorage :=
       removeItem "notificationsLastViewed"
         (removeItem "dismissedNotifications" (st_localStorage st)) |}.

Definition isLevel (l : RiskLevel) (a : Alert) : bool :=
  match l, riskLevel a with
  | HIGH, HIGH | MEDIUM, MEDIUM | LOW, LOW => true
  | _, _ => false
  end.

(** The [unreadCount] memo. *)
Definition unreadCount (hasViewedPanel : bool) (alerts : list Alert) : nat :=
  if negb hasViewedPanel then List.length alerts
  else List.length (filter isNew alerts).

(** The [highPriorityAlerts] memo. *)
Definition highPriorityAlerts (alerts : list Alert) : list Alert :=
  filter (isLevel HIGH) alerts.

Record Stats : Type := {
  s_total : nat;
  s_unread : nat;
  s_highPriority : nat;
  s_mediumPriority : nat;
  s_lowPriority : nat;
  s_dismissed : nat
}.

(** The [stats] memo. *)
Definition stats (st : HookState) (alerts : list Alert) : Stats :=
  {| s_total := List.length alerts;
     s_unread := unreadCount (st_hasViewedPanel st) alerts;
     s_highPriority := List.length (highPriorityAlerts alerts);
     s_mediumPriority := List.length (filter (isLevel MEDIUM) alerts);
     s_lowPriority := List.length (filter (isLevel LOW) alerts);
     s_dismissed := List.length (st_dismissedIds st) |}.

Section HookRender.
Context {host : Host}.

(** The [alerts] memo of a render at the time [now]. *)
Definition hookAlerts (now : Z) (st : HookState) (celestialBodies : list CelestialBody)
  : Completion (list Alert) :=
  alerts now (st_dismissedIds st) (st_lastViewedTime st) celestialBodies.

End HookRender.



(** A score the three buckets can add up to. *)
Definition reachableScore (s : Z) : Prop := s mod 5 = 0 \/ s mod 10 = 3.

(** The colour of a level. *)
Definition levelColor (l : RiskLevel) : string :=
  match l with
  | HIGH => "#ff006e"
  | MEDIUM => "#ffbe0b"
  | LOW => "#00f0ff"
  end.

(** The distance of a body is a number, not [NaN]. *)
Definition hasDistance (b : CelestialBody) : Prop :=
  (JS.toNumber (distanceFromEarth b) =? JS.toNumber (distanceFromEarth b))%float = true.

(** [a] is at most as far as [b]. *)
Definition notFarther (a b : CelestialBody) : Prop :=
  (JS.toNumber (distanceFromEarth a) <=? JS.toNumber (distanceFromEarth b))%float = true.

(** [a] approaches no later than [b], both on a valid date. *)
Definition notLater (a b : Approach) : Prop :=
  exists x y, ap_approachDate a = Some x /\ ap_approachDate b = Some y /\ x <= y.

(** A specification value with the sign [s] that is not a zero. *)
Definition SFsigned (s : bool) (r : spec_float) : Prop :=
  r = S754_infinity s \/ exists m e, r = S754_finite s m e.

(** The actions the hook hands out, and a session as a run of them. *)
Inductive Action : Type :=
| MarkAsViewed (now : Z)
| DismissNotification (alertId : string)
| ClearDismissed
| ResetNotifications.

Definition act (st : HookState) (a : Action) : HookState :=
  match a with
  | MarkAsViewed now => markAsViewed now st
  | DismissNotification alertId => dismissNotification alertId st
  | ClearDismissed => clearDismissed st
  | ResetNotifications => resetNotifications st
  end.

(** The state of a first visit: nothing is stored, so the initialisers give
    no dismissed id and no last viewed time. *)
Definition freshState : HookState :=
  {| st_dismissedIds := []; st_hasViewedPanel := false; st_lastViewedTime := None;
     st_localStorage := fun _ => None |}.

(** What is stored is what the state holds. *)
Definition persisted (st : HookState) : Prop :=
  (st_localStorage st "dismissedNotifications"
   = Some (JSON_stringify (st_dismissedIds st)) \/
   (st_localStorage st "dismissedNotifications" = None /\ st_dismissedIds st = [])) /\
  match st_lastViewedTime st with
  | None =>
      st_localStorage st "notificationsLastViewed" = None /\ st_hasViewedPanel st = false
  | Some d =>
      exists t, d = Some t /\
                st_localStorage st "notificationsLastViewed" = Some (Date.toISOString t) /\
                st_hasViewedPanel st = true
  end.


(* ================================================================== *)
(** * The model at sample inputs                                       *)
(* ================================================================== *)

Example Number_toString_samples :
  map JS.Number_toString
    [0.1; 1e21; 123.456; 5e-324; 1.7976931348623157e308; 0.000001; 1e-7; 100;
     (0.1 + 0.2); 9007199254740992; 1e23; (-1.5e-10); nan; (-0); infinity]%float
  = ["0.1"; "1e+21"; "123.456"; "5e-324"; "1.7976931348623157e+308"; "0.000001";
     "1e-7"; "100"; "0.30000000000000004"; "9007199254740992"; "1e+23";
     "-1.5e-10"; "NaN"; "0"; "Infinity"].
Proof. vm_compute. reflexivity. Qed.

Example toFixed_samples :
  [JS.toFixed 0.31 2; JS.toFixed 30.7 1; JS.toFixed (0.16 * 1000) 0;
   JS.toFixed 1.005 2; JS.toFixed 2.5 0; JS.toFixed (-1.5) 0;
   JS.toFixed (-0.001) 2; JS.toFixed nan 0; JS.toFixed 1e21 2;
   JS.toFixed (-0) 2; JS.toFixed 1234.5678 1]
  = ["0.31"; "30.7"; "160"; "1.00"; "3"; "-2"; "-0.00"; "NaN"; "1e+21"; "0.00";
     "1234.6"].
Proof. vm_compute. reflexivity. Qed.

Example Math_round_samples :
  map JS.Math_round [2.5; -1.5; 0.49999999999999994; 48.666666666666664; nan]%float
  = [3; -1; 0; 49; nan]%float.
Proof. vm_compute. reflexivity. Qed.

Example toISOString_samples :
  map Date.toISOString [0; sampleNow; -1000; 951782400000; Date.maxTime]
  = ["1970-01-01T00:00:00.000Z"; "2026-02-10T12:30:45.123Z";
     "1969-12-31T23:59:59.000Z"; "2000-02-29T00:00:00.000Z";
     "+275760-09-13T00:00:00.000Z"].
Proof. vm_compute. reflexivity. Qed.

Example parseISODate_samples :
  map SampleHost.parseISODate ["2026-03-01"; "2000-02-29"; "2001-02-29"; "soon"]
  = [Some 1772323200000; Some 951782400000; None; None].
Proof. vm_compute. reflexivity. Qed.

Section SampleRuns.
#[local] Existing Instance SampleHost.host.

Example catalog_scores :
  mapM (fun b => r <- calculateRiskScore (Some b) ;; Normal (score r, level r))
    celestialBodies
  = Normal [(53, MEDIUM); (83, HIGH); (43, MEDIUM); (40, MEDIUM); (65, MEDIUM);
            (40, MEDIUM); (43, MEDIUM); (40, MEDIUM); (40, MEDIUM); (40, MEDIUM);
            (45, MEDIUM); (60, MEDIUM)].
Proof. vm_compute. reflexivity. Qed.

Example apophis_explanations :
  (r <- calculateRiskScore (Some apophis) ;; Normal (map f_explanation (factors r)))
  = Normal
      ["CRITICAL proximity at 0.31 M km - Extremely close approach requiring immediate attention";
       "HIGH velocity at 30.7 km/s - Fast approach significantly increases kinetic energy and damage potential";
       "MEDIUM object (~160m diameter) - Regional impact potential, Tunguska-scale event"].
Proof. vm_compute. reflexivity. Qed.

(** A body without a velocity passes the filter and makes [alerts] throw. *)
Example absent_velocity_throws :
  alerts sampleNow [] None
    [{| id := "x"; name := "X"; distanceFromEarth := Some 1%float; velocity := None;
        radius := Some 0.1%float; color := ""; closeApproachDate := Some "2026-02-20" |}]
  = Throw TypeError.
Proof. vm_compute. reflexivity. Qed.

Example sample_alerts :
  (l <- alerts sampleNow ["asteroid-2023xy"] None celestialBodies ;;
   Normal (map (fun a => (objectId a, riskLevel a, daysUntilApproach a)) l))
  = Normal [("asteroid-apophis", HIGH, Some 19); ("asteroid-itokawa", MEDIUM, Some 18)].
Proof. vm_compute. reflexivity. Qed.

Example sample_trend :
  (t <- getRiskTrend (Some vesta) celestialBodies ;; Normal (current t, average t, trend t, message t))
  = Normal (40, 49%float, AVERAGE, "Within average risk range for tracked objects").
Proof. vm_compute. reflexivity. Qed.

End SampleRuns.

(* ================================================================== *)
(** * Order and doubling of binary64 values                            *)
(* ================================================================== *)

Module FloatOrder.

Ltac order_cases :=
  repeat match goal with
         | |- context [Z.compare ?a ?b] => destruct (Z.compare_spec a b)
         | H : context [Z.compare ?a ?b] |- _ => destruct (Z.compare_spec a b)
         | |- context [Pos.compare ?a ?b] => destruct (Pos.compare_spec a b)
         | H : context [Pos.compare ?a ?b] |- _ => destruct (Pos.compare_spec a b)
         end;
  cbn [CompOpp] in *; subst; try discriminate; try reflexivity; try lia.

Lemma SFleb_ltb_trans (x y z : spec_float) :
  SFleb x y = true -> SFltb y z = true -> SFltb x z = true.
Proof.
  unfold SFleb, SFltb, SFcompare.
  destruct x as [sx|sx| |sx mx ex], y as [sy|sy| |sy my ey], z as [sz|sz| |sz mz ez];
    try discriminate;
    try destruct sx; try destruct sy; try destruct sz;
    try discriminate; try reflexivity;
    change (Pos.compare_cont Eq) with Pos.compare;
    intros H1 H2; order_cases.
Qed.

Lemma SFltb_leb_trans (x y z : spec_float) :
  SFltb x y = true -> SFleb y z = true -> SFltb x z = true.
Proof.
  unfold SFleb, SFltb, SFcompare.
  destruct x as [sx|sx| |sx mx ex], y as [sy|sy| |sy my ey], z as [sz|sz| |sz mz ez];
    try discriminate;
    try destruct sx; try destruct sy; try destruct sz;
    try discriminate; try reflexivity;
    change (Pos.compare_cont Eq) with Pos.compare;
    intros H1 H2; order_cases.
Qed.

Lemma leb_ltb_trans (x y z : float) :
  (x <=? y)%float = true -> (y <? z)%float = true -> (x <? z)%float = true.
Proof. rewrite leb_spec, !ltb_spec. apply SFleb_ltb_trans. Qed.

Lemma ltb_leb_trans (x y z : float) :
  (x <? y)%float = true -> (y <=? z)%float = true -> (x <? z)%float = true.
Proof. rewrite leb_spec, !ltb_spec. apply SFltb_leb_trans. Qed.

Lemma two_spec : Prim2SF 2 = S754_finite false 4503599627370496 (-51).
Proof. vm_compute. reflexivity. Qed.

Lemma mul_pow2_52 (m : positive) :
  (m * 4503599627370496)%positive
  = (m~0~0~0~0~0~0~0~0~0~0~0~0~0~0~0~0~0~0~0~0~0~0~0~0~0~0~0~0~0~0~0~0~0~0~0~0~0~0~0~0~0~0~0~0~0~0~0~0~0~0~0~0)%positive.
Proof. rewrite !Pos.mul_xO_r, Pos.mul_1_r. reflexivity. Qed.

Lemma canonical_cases (m : positive) (e : Z) :
  bounded prec emax m e = true ->
  e <= 971 /\
  ((Zpos (digits2_pos m) = 53 /\ -1074 <= e) \/
   (Zpos (digits2_pos m) < 53 /\ e = -1074)).
Proof.
  unfold bounded, canonical_mantissa, fexp, emin, prec, emax.
  intros H. apply andb_true_iff in H as [H1 H2].
  apply Z.eqb_eq in H1. apply Z.leb_le in H2. lia.
Qed.


Lemma digits2_shift52 (m : positive) :
  Zdigits2 (Zpos (m * 4503599627370496)) = Zpos (digits2_pos m) + 52.
Proof.
  rewrite mul_pow2_52. cbn [Zdigits2 digits2_pos]. rewrite !Pos2Z.inj_succ. lia.
Qed.

Lemma binary_round_aux_exact (s : bool) (M M' n : positive) (e : Z) :
  fexp prec emax (Zdigits2 (Zpos M) + e) - e = Zpos n ->
  iter_pos shr_1 n (Build_shr_record (Zpos M) false false)
  = Build_shr_record (Zpos M') false false ->
  fexp prec emax (Zpos (digits2_pos M') + (e + Zpos n)) = e + Zpos n ->
  binary_round_aux prec emax s (Zpos M) e loc_Exact
  = if e + Zpos n <=? emax - prec then S754_finite s M' (e + Zpos n)
    else S754_infinity s.
Proof.
  intros H1 H2 H3. unfold binary_round_aux, shr_fexp.
  rewrite H1. cbn [shr shr_record_of_loc]. rewrite H2.
  cbn [shr_m loc_of_shr_record round_nearest_even Zdigits2 shr_record_of_loc].
  rewrite H3, Z.sub_diag. reflexivity.
Qed.

Lemma SF64mul_two (x : spec_float) :
  valid_binary x = true -> SF64mul x (Prim2SF 2) = SFdouble x.
Proof.
  rewrite two_spec. destruct x as [s|s| |s m e]; cbn [valid_binary SF64mul SFmul SFdouble].
  - now rewrite xorb_false_r.
  - now rewrite xorb_false_r.
  - reflexivity.
  - intros Hb. apply canonical_cases in Hb as [He [[Hd Hlo]|[Hd Hlo]]];
      rewrite xorb_false_r.
    + rewrite (binary_round_aux_exact s _ m 52).
      * rewrite Hd. cbn [Z.eqb Pos.eqb prec]. 
        replace (e + -51 + 52) with (e + 1) by lia. reflexivity.
      * rewrite digits2_shift52, Hd. unfold fexp, SpecFloat.emin, prec, emax. lia.
      * rewrite mul_pow2_52. reflexivity.
      * rewrite Hd. unfold fexp, SpecFloat.emin, prec, emax. lia.
    + rewrite (binary_round_aux_exact s _ (m~0) 51).
      * assert (Hne : (Zpos (digits2_pos m) =? prec) = false)
          by (apply Z.eqb_neq; unfold prec; lia).
        rewrite Hne. subst e.
        reflexivity.
      * rewrite digits2_shift52. unfold fexp, SpecFloat.emin, prec, emax. lia.
      * rewrite mul_pow2_52. reflexivity.
      * cbn [digits2_pos]. rewrite Pos2Z.inj_succ.
        unfold fexp, SpecFloat.emin, prec, emax. lia.
Qed.

Lemma digits2_size (p : positive) : digits2_pos p = Pos.size p.
Proof. induction p; cbn; congruence. Qed.

Lemma digits2_lt_pow2 (p : positive) (n : Z) :
  Zpos (digits2_pos p) <= n -> Zpos p < 2 ^ n.
Proof.
  intros H. rewrite digits2_size in H.
  pose proof (Pos.size_gt p) as Hgt.
  apply Pos2Z.pos_lt_pos in Hgt. rewrite Pos2Z.inj_pow in Hgt.
  eapply Z.lt_le_trans; [exact Hgt|].
  apply Z.pow_le_mono_r; lia.
Qed.

Lemma digits2_ge_pow2 (p : positive) :
  2 ^ Zpos (digits2_pos p) <= 2 * Zpos p.
Proof.
  rewrite digits2_size.
  pose proof (Pos.size_le p) as Hle.
  apply Pos2Z.pos_le_pos in Hle. rewrite Pos2Z.inj_pow in Hle.
  exact Hle.
Qed.

Lemma SFdouble_normal (s : bool) (m : positive) (e : Z) :
  Zpos (digits2_pos m) = 53 ->
  SFdouble (S754_finite s m e)
  = if e + 1 <=? 971 then S754_finite s m (e + 1) else S754_infinity s.
Proof. intros H. cbn [SFdouble]. rewrite H. reflexivity. Qed.

Lemma SFdouble_subnormal (s : bool) (m : positive) (e : Z) :
  Zpos (digits2_pos m) < 53 ->
  SFdouble (S754_finite s m e) = S754_finite s m~0 e.
Proof.
  intros H. cbn [SFdouble].
  replace (Zpos (digits2_pos m) =? prec) with false; [reflexivity|].
  symmetry. apply Z.eqb_neq. unfold prec. lia.
Qed.

Ltac double_finite H :=
  apply canonical_cases in H as [? [[? ?]|[? ?]]];
  [rewrite SFdouble_normal by assumption | rewrite SFdouble_subnormal by assumption].

Lemma SFdouble_mono (x y : spec_float) :
  valid_binary x = true -> valid_binary y = true ->
  SFleb x y = true -> SFleb (SFdouble x) (SFdouble y) = true.
Proof.
  destruct x as [sx|sx| |sx mx ex], y as [sy|sy| |sy my ey];
    cbn [valid_binary]; intros Hx Hy; try (intros H; exact H);
    try discriminate.
  - (* zero, finite *)
    double_finite Hy; [destruct (ey + 1 <=? 971)|]; intros Hc; exact Hc.
  - (* infinity, finite *)
    double_finite Hy; [destruct (ey + 1 <=? 971)|]; intros Hc; try exact Hc.
    destruct sx, sy; try discriminate; reflexivity.
  - (* finite, zero *)
    double_finite Hx; [destruct (ex + 1 <=? 971)|]; intros Hc; exact Hc.
  - (* finite, infinity *)
    double_finite Hx; [destruct (ex + 1 <=? 971)|]; intros Hc; try exact Hc.
    destruct sx, sy; try discriminate; reflexivity.
  - (* finite, finite *)
    pose proof (digits2_ge_pow2 mx) as Gx. pose proof (digits2_ge_pow2 my) as Gy.
    pose proof (digits2_lt_pow2 mx 52) as Lx. pose proof (digits2_lt_pow2 my 52) as Ly.
    change (2 ^ 52) with 4503599627370496 in *.
    double_finite Hx; double_finite Hy.
    all: repeat match goal with
                | H : Zpos (digits2_pos _) = 53 |- _ => rewrite H in *; clear H
                end.
    all: change (2 ^ 53) with 9007199254740992 in *.
    all: repeat match goal with
                | |- context [?a <=? ?b] => destruct (Z.leb_spec a b)
                end.
    all: unfold SFleb, SFcompare; destruct sx, sy; try discriminate; try reflexivity.
    all: change (Pos.compare_cont Eq mx~0 my~0) with (Pos.compare mx my).
    all: change (Pos.compare_cont Eq) with Pos.compare.
    all: intros Hcmp; order_cases.
Qed.

Lemma mul2_mono (x y : float) :
  (x <=? y)%float = true -> (x * 2 <=? y * 2)%float = true.
Proof.
  rewrite !leb_spec, !mul_spec, !SF64mul_two by apply Prim2SF_valid.
  apply SFdouble_mono; apply Prim2SF_valid.
Qed.

Lemma ltb_leb (x y : float) : (x <? y)%float = true -> (x <=? y)%float = true.
Proof.
  rewrite ltb_spec, leb_spec. unfold SFltb, SFleb.
  destruct (SFcompare _ _) as [[]|]; intros H; try discriminate H; reflexivity.
Qed.

End FloatOrder.

(* ================================================================== *)
(** * The risk score                                                   *)
(* ================================================================== *)

Section RiskScoreFacts.
Context {host : Host}.

Lemma distanceRisk_Normal (b : CelestialBody) (s : Z) (e : string) :
  distanceRisk b = Normal (s, e) ->
  exists d, distanceFromEarth b = Some d /\ s = distanceBucket d.
Proof.
  unfold distanceRisk, distanceBucket.
  destruct (distanceFromEarth b) as [d|]; cbn [JS.toNumber callToFixed bind].
  - intros H. exists d. split; [reflexivity|].
    repeat match type of H with
           | context [if ?c then _ else _] => destruct c
           end; now inversion H.
  - intros H.
    repeat match type of H with
           | context [if ?c then _ else _] => destruct c
           end; discriminate H.
Qed.

Lemma distanceRisk_defined (b : CelestialBody) (d : float) :
  distanceFromEarth b = Some d ->
  exists e, distanceRisk b = Normal (distanceBucket d, e).
Proof.
  intros Hd. unfold distanceRisk, distanceBucket. rewrite Hd.
  cbn [JS.toNumber callToFixed bind].
  repeat match goal with
         | |- context [if ?c then _ else _] => destruct c
         end; eexists; reflexivity.
Qed.

Lemma velocityRisk_Normal (b : CelestialBody) (s : Z) (e : string) :
  velocityRisk b = Normal (s, e) ->
  exists v, velocity b = Some v /\ s = velocityBucket v.
Proof.
  unfold velocityRisk, velocityBucket.
  destruct (velocity b) as [v|]; cbn [JS.toNumber callToFixed bind].
  - intros H. exists v. split; [reflexivity|].
    repeat match type of H with
           | context [if ?c then _ else _] => destruct c
           end; now inversion H.
  - intros H.
    repeat match type of H with
           | context [if ?c then _ else _] => destruct c
           end; discriminate H.
Qed.

Lemma velocityRisk_defined (b : CelestialBody) (v : float) :
  velocity b = Some v ->
  exists e, velocityRisk b = Normal (velocityBucket v, e).
Proof.
  intros Hv. unfold velocityRisk, velocityBucket. rewrite Hv.
  cbn [JS.toNumber callToFixed bind].
  repeat match goal with
         | |- context [if ?c then _ else _] => destruct c
         end; eexists; reflexivity.
Qed.

Lemma sizeRisk_score (x : float) : fst (sizeRisk x) = sizeBucket x.
Proof.
  unfold sizeRisk, sizeBucket.
  repeat match goal with
         | |- context [if ?c then _ else _] => destruct c
         end; reflexivity.
Qed.

(** The shape of every assessment of a non-null body. *)
Lemma calculateRiskScore_Normal (b : CelestialBody) (r : RiskAssessment) :
  calculateRiskScore (Some b) = Normal r ->
  exists d v,
    distanceFromEarth b = Some d /\ velocity b = Some v /\
    score r = distanceBucket d + velocityBucket v + sizeBucket (estimatedDiameterOf b) /\
    map f_score (factors r)
    = [distanceBucket d; velocityBucket v; sizeBucket (estimatedDiameterOf b)] /\
    map f_name (factors r) = ["Distance"; "Velocity"; "Size"] /\
    (exists f, nth_error (factors r) 2 = Some f /\
               f_explanation f = snd (sizeRisk (estimatedDiameterOf b))) /\
    level r = levelOf (score r).
Proof.
  unfold calculateRiskScore.
  destruct (distanceRisk b) as [[ds de]|] eqn:Hd; [|discriminate].
  destruct (velocityRisk b) as [[vs ve]|] eqn:Hv; [|discriminate].
  cbn [bind].
  apply distanceRisk_Normal in Hd as (d & Hd & ->).
  apply velocityRisk_Normal in Hv as (v & Hv & ->).
  pose proof (sizeRisk_score (estimatedDiameterOf b)) as Hs.
  destruct (sizeRisk (estimatedDiameterOf b)) as [ss se]. cbn [fst] in Hs. subst ss.
  unfold levelOf.
  destruct (classifyScore _) as [[lv co] ex] eqn:Hc.
  intros H. inversion H; subst r; clear H. cbn [score factors level].
  exists d, v. repeat split; try assumption; try reflexivity.
  - eexists. split; reflexivity.
  - change (0 + distanceBucket d) with (distanceBucket d) in Hc.
    rewrite Hc. reflexivity.
Qed.

(** A body with a distance and a velocity has an assessment. *)
Lemma calculateRiskScore_defined (b : CelestialBody) (d v : float) :
  distanceFromEarth b = Some d -> velocity b = Some v ->
  exists r, calculateRiskScore (Some b) = Normal r.
Proof.
  intros Hd Hv. unfold calculateRiskScore.
  destruct (distanceRisk_defined b d Hd) as [de ->].
  destruct (velocityRisk_defined b v Hv) as [ve ->].
  cbn [bind].
  destruct (sizeRisk _) as [ss se].
  destruct (classifyScore _) as [[lv co] ex].
  eexists. reflexivity.
Qed.

Lemma distanceBucket_range (d : float) : 10 <= distanceBucket d <= 40.
Proof.
  unfold distanceBucket.
  repeat match goal with |- context [if ?c then _ else _] => destruct c end; lia.
Qed.

Lemma velocityBucket_range (v : float) : 5 <= velocityBucket v <= 35.
Proof.
  unfold velocityBucket.
  repeat match goal with |- context [if ?c then _ else _] => destruct c end; lia.
Qed.

Lemma sizeBucket_range (x : float) : 5 <= sizeBucket x <= 25.
Proof.
  unfold sizeBucket.
  repeat match goal with |- context [if ?c then _ else _] => destruct c end; lia.
Qed.

Lemma sumScores_map (l : list Factor) :
  sumScores l = fold_right Z.add 0 (map f_score l).
Proof.
  induction l as [|f l IH]; cbn; [reflexivity|]. unfold sumScores in IH. now rewrite IH.
Qed.

Lemma levelOf_HIGH (s : Z) : levelOf s = HIGH <-> 66 <= s.
Proof.
  unfold levelOf, classifyScore.
  destruct (66 <=? s) eqn:H1; [|destruct (31 <=? s) eqn:H2]; cbn; split;
    intros; try discriminate; try reflexivity; lia.
Qed.

Lemma levelOf_MEDIUM (s : Z) : levelOf s = MEDIUM <-> 31 <= s < 66.
Proof.
  unfold levelOf, classifyScore.
  destruct (66 <=? s) eqn:H1; [|destruct (31 <=? s) eqn:H2]; cbn; split;
    intros; try discriminate; try reflexivity; lia.
Qed.

Lemma levelOf_LOW (s : Z) : levelOf s = LOW <-> s < 31.
Proof.
  unfold levelOf, classifyScore.
  destruct (66 <=? s) eqn:H1; [|destruct (31 <=? s) eqn:H2]; cbn; split;
    intros; try discriminate; try reflexivity; lia.
Qed.

(** C1. Whatever the body, [null] included, the score of a returned
    assessment is the sum of the scores of its factors, and lies between 0
    and 100. *)
Theorem score_is_sum_of_factors (body : option CelestialBody) (r : RiskAssessment) :
  calculateRiskScore body = Normal r ->
  score r = sumScores (factors r) /\ 0 <= score r <= 100.
Proof.
  destruct body as [b|].
  - intros H. apply calculateRiskScore_Normal in H
      as (d & v & _ & _ & Hs & Hf & _).
    rewrite sumScores_map, Hf, Hs. cbn [fold_right].
    pose proof (distanceBucket_range d). pose proof (velocityBucket_range v).
    pose proof (sizeBucket_range (estimatedDiameterOf b)). lia.
  - intros H. inversion H. cbn. lia.
Qed.

(** C2. For a non-null body the level is HIGH exactly when the score is at
    least 66, MEDIUM exactly when it is at least 31 and below 66, and LOW
    exactly when it is below 31; in particular 66 is HIGH and 31 is
    MEDIUM. *)
Theorem level_matches_score (b : CelestialBody) (r : RiskAssessment) :
  calculateRiskScore (Some b) = Normal r ->
  (level r = HIGH <-> 66 <= score r) /\
  (level r = MEDIUM <-> 31 <= score r < 66) /\
  (level r = LOW <-> score r < 31) /\
  level r = levelOf (score r) /\ levelOf 66 = HIGH /\ levelOf 31 = MEDIUM.
Proof.
  intros H. apply calculateRiskScore_Normal in H as (d & v & _ & _ & _ & _ & _ & _ & ->).
  split; [apply levelOf_HIGH|]. split; [apply levelOf_MEDIUM|].
  split; [apply levelOf_LOW|]. repeat split.
Qed.

(** C3. With a distance, a velocity and a radius that are numbers, none of
    them negative, the call does not throw and the score lies between 15
    and 100; it is in fact at least 20, the sum of the lowest buckets. *)
Theorem nonnegative_inputs_total (b : CelestialBody) (d v x : float) :
  distanceFromEarth b = Some d -> velocity b = Some v -> radius b = Some x ->
  (0 <=? d)%float = true -> (0 <=? v)%float = true -> (0 <=? x)%float = true ->
  exists r, calculateRiskScore (Some b) = Normal r /\
            15 <= score r <= 100 /\ 20 <= score r.
Proof.
  intros Hd Hv _ _ _ _.
  destruct (calculateRiskScore_defined b d v Hd Hv) as [r Hr].
  exists r. split; [exact Hr|].
  apply calculateRiskScore_Normal in Hr as (d' & v' & _ & _ & Hs & _).
  pose proof (distanceBucket_range d'). pose proof (velocityBucket_range v').
  pose proof (sizeBucket_range (estimatedDiameterOf b)). lia.
Qed.

(** C6. For a [null] or [undefined] body the call returns the canned
    assessment: score 0, level LOW, explanation "No object selected". *)
Theorem null_body_assessment :
  exists r, calculateRiskScore None = Normal r /\
            score r = 0 /\ level r = LOW /\ explanation r = "No object selected" /\
            r_color r = "#00f0ff" /\ factors r = [].
Proof. eexists. split; [reflexivity|]. cbn. repeat split. Qed.

(** C7. A body of distance 0.31, velocity 30.7 and radius 0.08 has the
    sub-scores 40, 25 and 18, on the diameter 0.16, the score 83 and the
    level HIGH. *)
Theorem apophis_like_assessment (b : CelestialBody) :
  distanceFromEarth b = Some 0.31%float -> velocity b = Some 30.7%float ->
  radius b = Some 0.08%float ->
  exists r, calculateRiskScore (Some b) = Normal r /\
            map f_score (factors r) = [40; 25; 18] /\
            estimatedDiameterOf b = 0.16%float /\ (0.15 <? 0.16)%float = true /\
            score r = 83 /\ level r = HIGH.
Proof.
  intros Hd Hv Hx.
  destruct (calculateRiskScore_defined b _ _ Hd Hv) as [r Hr].
  exists r. split; [exact Hr|].
  apply calculateRiskScore_Normal in Hr as (d' & v' & Hd' & Hv' & Hs & Hf & _ & _ & Hl).
  rewrite Hd in Hd'. rewrite Hv in Hv'. inversion Hd'; inversion Hv'; subst d' v'.
  assert (Hdiam : estimatedDiameterOf b = 0.16%float).
  { unfold estimatedDiameterOf. rewrite Hx. reflexivity. }
  rewrite Hdiam in Hs, Hf.
  repeat split; try assumption; try reflexivity.
  rewrite Hl, Hs. reflexivity.
Qed.

(** C5, as the code has it. A body without a radius, with a distance and a
    velocity, still has an assessment: the diameter is [NaN], every size
    comparison fails, the size score is the 5 points of the TINY bucket, and
    the explanation shows the diameter as the text "NaN". *)
Theorem missing_radius_assessment (b : CelestialBody) (d v : float) :
  radius b = None -> distanceFromEarth b = Some d -> velocity b = Some v ->
  exists r f,
    calculateRiskScore (Some b) = Normal r /\
    estimatedDiameterOf b = nan /\
    List.length (factors r) = 3%nat /\
    nth_error (factors r) 2 = Some f /\
    f_score f = 5 /\
    f_explanation f
    = "TINY object (~NaNm diameter) - Minimal threat, likely to disintegrate on entry" /\
    containsText (f_explanation f) "unknown" = false.
Proof.
  intros Hx Hd Hv.
  destruct (calculateRiskScore_defined b d v Hd Hv) as [r Hr].
  pose proof Hr as Hr'.
  apply calculateRiskScore_Normal in Hr'
    as (d' & v' & _ & _ & _ & Hf & _ & (f & Hn & He) & _).
  assert (Hdiam : estimatedDiameterOf b = nan).
  { unfold estimatedDiameterOf. rewrite Hx. reflexivity. }
  exists r, f. rewrite Hdiam in *.
  split; [exact Hr|]. split; [reflexivity|].
  split; [rewrite <- (length_map f_score), Hf; reflexivity|].
  split; [exact Hn|].
  split.
  { apply (f_equal (fun l => nth_error l 2)) in Hf.
    rewrite nth_error_map, Hn in Hf. cbn in Hf. now inversion Hf. }
  rewrite He. split; reflexivity.
Qed.

End RiskScoreFacts.

(* ================================================================== *)
(** * Monotonicity of the buckets                                      *)
(* ================================================================== *)

Ltac bucket_cases :=
  repeat match goal with
         | |- context [if ?c then _ else _] => destruct c eqn:?
         end; try lia.

Lemma distanceBucket_mono (d1 d2 : float) :
  (d1 <=? d2)%float = true -> distanceBucket d2 <= distanceBucket d1.
Proof.
  intros H. unfold distanceBucket. bucket_cases.
  all: repeat match goal with
              | G : (_ <? _)%float = true |- _ =>
                  pose proof (FloatOrder.leb_ltb_trans _ _ _ H G); clear G
              end; congruence.
Qed.

Lemma velocityBucket_mono (v1 v2 : float) :
  (v1 <=? v2)%float = true -> velocityBucket v1 <= velocityBucket v2.
Proof.
  intros H. unfold velocityBucket. bucket_cases.
  all: repeat match goal with
              | G : (_ <? _)%float = true |- _ =>
                  pose proof (FloatOrder.ltb_leb_trans _ _ _ G H); clear G
              end; congruence.
Qed.

Lemma sizeBucket_mono (x1 x2 : float) :
  (x1 <=? x2)%float = true -> sizeBucket x1 <= sizeBucket x2.
Proof.
  intros H. unfold sizeBucket. bucket_cases.
  all: repeat match goal with
              | G : (_ <? _)%float = true |- _ =>
                  pose proof (FloatOrder.ltb_leb_trans _ _ _ G H); clear G
              end; congruence.
Qed.

Section TrendAndMonotonicity.
Context {host : Host}.

Lemma factorScore_Normal (b : CelestialBody) (r : RiskAssessment) :
  calculateRiskScore (Some b) = Normal r ->
  exists d v,
    distanceFromEarth b = Some d /\ velocity b = Some v /\
    factorScore r 0 = distanceBucket d /\
    factorScore r 1 = velocityBucket v /\
    factorScore r 2 = sizeBucket (estimatedDiameterOf b) /\
    score r = factorScore r 0 + factorScore r 1 + factorScore r 2.
Proof.
  intros H. apply calculateRiskScore_Normal in H as (d & v & Hd & Hv & Hs & Hf & _).
  exists d, v. unfold factorScore. rewrite Hf. cbn [nth]. repeat split; assumption.
Qed.

(** C4. Of two bodies with the same velocity and radius, the one that is not
    farther has a distance score, and a total score, at least as high as the
    other's; likewise the one that is not slower, at equal distance and
    radius, for the velocity score, and the one that is not smaller, at
    equal distance and velocity, for the size score. *)
Theorem score_monotone (b1 b2 : CelestialBody) (r1 r2 : RiskAssessment) :
  calculateRiskScore (Some b1) = Normal r1 ->
  calculateRiskScore (Some b2) = Normal r2 ->
  (closerThan b1 b2 ->
   factorScore r2 0 <= factorScore r1 0 /\ score r2 <= score r1) /\
  (fasterThan b1 b2 ->
   factorScore r2 1 <= factorScore r1 1 /\ score r2 <= score r1) /\
  (largerThan b1 b2 ->
   factorScore r2 2 <= factorScore r1 2 /\ score r2 <= score r1).
Proof.
  intros H1 H2.
  apply factorScore_Normal in H1 as (d1 & v1 & Hd1 & Hv1 & F10 & F11 & F12 & S1).
  apply factorScore_Normal in H2 as (d2 & v2 & Hd2 & Hv2 & F20 & F21 & F22 & S2).
  unfold estimatedDiameterOf in F12, F22.
  rewrite S1, S2, F10, F11, F12, F20, F21, F22. clear S1 S2 F10 F11 F12 F20 F21 F22.
  split; [|split].
  - intros (Ev & Ex & e1 & e2 & E1 & E2 & Hle).
    rewrite Hd1 in E1. rewrite Hd2 in E2. inversion E1; inversion E2; subst e1 e2.
    rewrite Hv1, Hv2 in Ev. inversion Ev; subst v2. rewrite Ex.
    pose proof (distanceBucket_mono d1 d2 Hle). lia.
  - intros (Ed & Ex & e1 & e2 & E1 & E2 & Hle).
    rewrite Hv1 in E1. rewrite Hv2 in E2. inversion E1; inversion E2; subst e1 e2.
    rewrite Hd1, Hd2 in Ed. inversion Ed; subst d2. rewrite Ex.
    pose proof (velocityBucket_mono v2 v1 Hle). lia.
  - intros (Ed & Ev & x1 & x2 & E1 & E2 & Hle).
    rewrite Hd1, Hd2 in Ed. inversion Ed; subst d2.
    rewrite Hv1, Hv2 in Ev. inversion Ev; subst v2.
    rewrite E1, E2. cbn [JS.toNumber].
    pose proof (sizeBucket_mono _ _ (FloatOrder.mul2_mono x2 x1 Hle)). lia.
Qed.

Lemma reduceM_scores (l : list CelestialBody) (acc total : Z) :
  reduceM (fun sum b => r <- calculateRiskScore (Some b) ;; Normal (sum + score r))
    l acc = Normal total ->
  exists rs,
    mapM (fun b => calculateRiskScore (Some b)) l = Normal rs /\
    total = fold_left (fun sum r => sum + score r) rs acc.
Proof.
  revert acc. induction l as [|b l IH]; cbn [reduceM mapM]; intros acc H.
  - inversion H. exists []. split; reflexivity.
  - destruct (calculateRiskScore (Some b)) as [r|]; [|discriminate H].
    cbn [bind] in *. apply IH in H as (rs & -> & ->).
    exists (r :: rs). split; reflexivity.
Qed.

(** C9. The trend compares the delta between the body's score and the mean
    score of the collection, both as the code computes them in binary64
    arithmetic, with the band of 15 points: ABOVE_AVERAGE exactly when the
    delta exceeds 15, BELOW_AVERAGE exactly when it is below -15, AVERAGE
    otherwise.  (Also for an empty collection, whose mean is NaN.) *)
Theorem risk_trend_band (body : option CelestialBody) (allBodies : list CelestialBody)
    (t : RiskTrend) :
  getRiskTrend body allBodies = Normal t ->
  exists cur rs,
    calculateRiskScore body = Normal cur /\
    mapM (fun b => calculateRiskScore (Some b)) allBodies = Normal rs /\
    let mean := (JS.ofZ (totalScore rs) / JS.ofZ (Z.of_nat (List.length allBodies)))%float in
    let delta := (JS.ofZ (score cur) - mean)%float in
    current t = score cur /\
    (trend t = ABOVE_AVERAGE <-> (15 <? delta)%float = true) /\
    (trend t = BELOW_AVERAGE <-> (delta <? -15)%float = true) /\
    (trend t = AVERAGE <-> (15 <? delta)%float = false /\ (delta <? -15)%float = false).
Proof.
  unfold getRiskTrend.
  destruct (calculateRiskScore body) as [cur|]; [|discriminate].
  cbn [bind].
  destruct (reduceM _ allBodies 0) as [total|] eqn:Hr; [|discriminate].
  cbn [bind]. apply reduceM_scores in Hr as (rs & Hm & ->).
  intros H. inversion H; subst t; clear H.
  exists cur, rs. split; [reflexivity|]. split; [exact Hm|].
  cbn [current trend]. fold (totalScore rs).
  set (delta := (JS.ofZ (score cur) - _)%float).
  split; [reflexivity|].
  destruct (15 <? delta)%float eqn:Ha.
  - assert (Hb : (delta <? -15)%float = false).
    { destruct (delta <? -15)%float eqn:Hb; [|reflexivity].
      apply FloatOrder.ltb_leb in Hb.
      pose proof (FloatOrder.ltb_leb_trans _ _ _ Ha Hb) as Hc. discriminate Hc. }
    rewrite Hb. repeat split; intros; try discriminate; try reflexivity.
    destruct H; discriminate.
  - destruct (delta <? -15)%float eqn:Hb;
      repeat split; intros; try discriminate; try reflexivity.
    destruct H; discriminate.
Qed.

End TrendAndMonotonicity.

(* ================================================================== *)
(** * Sorting with a comparator                                        *)
(* ================================================================== *)

Section ArraySortFacts.
Context {A : Type}.
Variable comparefn : A -> A -> option Z.
Variable P : A -> Prop.
Variable R : A -> A -> Prop.
Hypothesis R_trans : forall a b c, R a b -> R b c -> R a c.
Hypothesis R_le : forall a b, P a -> P b -> sortCompare comparefn a b <= 0 -> R a b.
Hypothesis R_gt : forall a b, P a -> P b -> 0 < sortCompare comparefn a b -> R b a.

Lemma insertSorted_In (x z : A) (l : list A) :
  In z (insertSorted comparefn x l) <-> z = x \/ In z l.
Proof.
  induction l as [|y l IH]; cbn.
  - intuition congruence.
  - destruct (sortCompare comparefn x y <=? 0); cbn; rewrite ?IH; intuition congruence.
Qed.

Lemma Array_sort_cons (x : A) (l : list A) :
  Array_sort comparefn (x :: l) = insertSorted comparefn x (Array_sort comparefn l).
Proof. reflexivity. Qed.

Lemma Array_sort_In (z : A) (l : list A) :
  In z (Array_sort comparefn l) <-> In z l.
Proof.
  induction l as [|x l IH]; [cbn; tauto|].
  rewrite Array_sort_cons, insertSorted_In, IH. cbn. intuition congruence.
Qed.

Lemma insertSorted_sorted (x : A) (l : list A) :
  P x -> Forall P l -> StronglySorted R l ->
  StronglySorted R (insertSorted comparefn x l).
Proof.
  intros Hx Hl Hs. induction Hs as [|y l Hs IH Hy]; cbn.
  - constructor; constructor.
  - inversion Hl as [|? ? Py Pl]; subst.
    destruct (Z.leb_spec (sortCompare comparefn x y) 0) as [Hc|Hc].
    + constructor; [constructor; assumption|].
      constructor; [apply R_le; assumption|].
      eapply Forall_impl; [|exact Hy]. intros z Hz.
      eapply R_trans; [apply R_le; eassumption|exact Hz].
    + constructor; [apply IH; assumption|].
      apply Forall_forall. intros z Hz. apply insertSorted_In in Hz as [->|Hz].
      * apply R_gt; assumption.
      * rewrite Forall_forall in Hy. apply Hy, Hz.
Qed.

Lemma Array_sort_sorted (l : list A) :
  Forall P l -> StronglySorted R (Array_sort comparefn l).
Proof.
  induction l as [|x l IH]; intros Hl.
  - constructor.
  - inversion Hl as [|? ? Px Pl]; subst. rewrite Array_sort_cons.
    apply insertSorted_sorted; [assumption| |apply IH; assumption].
    apply Forall_forall. intros z Hz. rewrite Array_sort_In in Hz.
    rewrite Forall_forall in Pl. apply Pl, Hz.
Qed.

End ArraySortFacts.

Lemma StronglySorted_nth {A : Type} (R : A -> A -> Prop) (l : list A) :
  StronglySorted R l ->
  forall (i j : nat) (a b : A),
    (i < j)%nat -> nth_error l i = Some a -> nth_error l j = Some b -> R a b.
Proof.
  induction 1 as [|x l Hs IH Hx]; intros i j a b Hij Hi Hj.
  - destruct i; discriminate.
  - destruct j as [|j]; [lia|]. cbn in Hj.
    destruct i as [|i]; cbn in Hi.
    + inversion Hi; subst. rewrite Forall_forall in Hx.
      apply Hx. eapply nth_error_In, Hj.
    + apply (IH i j); [lia|assumption|assumption].
Qed.

Lemma mapM_Normal {A B : Type} (f : A -> Completion B) (l : list A) (l' : list B) :
  mapM f l = Normal l' -> Forall2 (fun x y => f x = Normal y) l l'.
Proof.
  revert l'. induction l as [|x l IH]; cbn; intros l' H.
  - inversion H. constructor.
  - destruct (f x) as [y|] eqn:Hy; [|discriminate]. cbn in H.
    destruct (mapM f l) as [ys|]; [|discriminate]. cbn in H.
    inversion H; subst. constructor; [assumption|]. apply IH. reflexivity.
Qed.

Lemma Forall2_In_r {A B : Type} (Q : A -> B -> Prop) (l : list A) (l' : list B) (y : B) :
  Forall2 Q l l' -> In y l' -> exists x, In x l /\ Q x y.
Proof.
  induction 1 as [|x y' l l' Hq _ IH]; cbn; [tauto|].
  intros [->|Hy].
  - exists x. auto.
  - destruct (IH Hy) as (x' & Hx' & Hq'). exists x'. auto.
Qed.

Lemma Forall2_In_l {A B : Type} (Q : A -> B -> Prop) (l : list A) (l' : list B) (x : A) :
  Forall2 Q l l' -> In x l -> exists y, In y l' /\ Q x y.
Proof.
  induction 1 as [|x' y l l' Hq _ IH]; cbn; [tauto|].
  intros [->|Hx].
  - exists y. auto.
  - destruct (IH Hx) as (y' & Hy' & Hq'). exists y'. auto.
Qed.

(* ================================================================== *)
(** * Alerts                                                           *)
(* ================================================================== *)

Lemma riskOrder_inj (l1 l2 : RiskLevel) : riskOrder l1 = riskOrder l2 -> l1 = l2.
Proof. destruct l1, l2; cbn; intros H; try reflexivity; discriminate H. Qed.

Lemma riskOrder_range (l : RiskLevel) : 1 <= riskOrder l <= 3.
Proof. destruct l; cbn; lia. Qed.

Lemma alertBefore_trans (a b c : Alert) :
  alertBefore a b -> alertBefore b c -> alertBefore a c.
Proof.
  intros (x & y & Hx & Hy & H1) (y' & z & Hy' & Hz & H2).
  rewrite Hy in Hy'. inversion Hy'; subst y'.
  exists x, z. split; [assumption|]. split; [assumption|].
  destruct H1 as [H1|[E1 H1]], H2 as [H2|[E2 H2]].
  - left. lia.
  - left. rewrite <- E2. exact H1.
  - left. rewrite E1. exact H2.
  - right. split; [congruence|lia].
Qed.

Lemma compareAlerts_le (a b : Alert) :
  hasDays a -> hasDays b -> sortCompare compareAlerts a b <= 0 -> alertBefore a b.
Proof.
  intros [x Hx] [y Hy]. unfold sortCompare, compareAlerts. rewrite Hx, Hy.
  intros H. exists x, y. split; [exact Hx|]. split; [exact Hy|].
  destruct (Z.eqb_spec (riskOrder (riskLevel b) - riskOrder (riskLevel a)) 0) as [E|E];
    cbn [negb] in *.
  - right. split; [apply riskOrder_inj|]; lia.
  - left. lia.
Qed.

Lemma compareAlerts_gt (a b : Alert) :
  hasDays a -> hasDays b -> 0 < sortCompare compareAlerts a b -> alertBefore b a.
Proof.
  intros [x Hx] [y Hy]. unfold sortCompare, compareAlerts. rewrite Hx, Hy.
  intros H. exists y, x. split; [exact Hy|]. split; [exact Hx|].
  destruct (Z.eqb_spec (riskOrder (riskLevel b) - riskOrder (riskLevel a)) 0) as [E|E];
    cbn [negb] in *.
  - right. split; [apply riskOrder_inj|]; lia.
  - left. lia.
Qed.

Lemma includes_In (l : list string) (x : string) : includes l x = true <-> In x l.
Proof.
  unfold includes. rewrite existsb_exists. split.
  - intros (y & Hy & E). apply String.eqb_eq in E. now subst.
  - intros H. exists x. split; [assumption|apply String.eqb_refl].
Qed.

Section NotificationFacts.
Context {host : Host}.
Variable now : Z.
Variable dismissedIds : list string.
Variable lastViewedTime : option Date.t.

Lemma alertFilter_date (b : CelestialBody) :
  alertFilter now dismissedIds b = true ->
  exists t, newDate (closeApproachDate b) = Some t.
Proof.
  unfold alertFilter. destruct (noCloseApproachDate b); [discriminate|].
  destruct (newDate (closeApproachDate b)) as [t|]; [eauto|discriminate].
Qed.

Lemma toAlert_days (b : CelestialBody) (a : Alert) (t : Z) :
  newDate (closeApproachDate b) = Some t ->
  toAlert now lastViewedTime b = Normal a -> hasDays a.
Proof.
  unfold toAlert. intros Ht.
  destruct (calculateRiskScore (Some b)) as [r|]; [|discriminate].
  cbn [bind]. intros H. inversion H; subst a; clear H.
  rewrite Ht. eexists. reflexivity.
Qed.

Lemma alerts_Normal (bodies : list CelestialBody) (l : list Alert) :
  alerts now dismissedIds lastViewedTime bodies = Normal l ->
  exists mapped,
    Forall2 (fun b a => toAlert now lastViewedTime b = Normal a)
      (filter (alertFilter now dismissedIds) bodies) mapped /\
    l = Array_sort compareAlerts mapped.
Proof.
  unfold alerts.
  destruct (mapM _ _) as [mapped|] eqn:Hm; [|discriminate].
  cbn [bind]. intros H. inversion H. exists mapped. split; [|reflexivity].
  apply mapM_Normal, Hm.
Qed.

(** C8. A body is selected for an alert exactly when it has a close approach
    date that lies within the next thirty days, its distance from Earth is
    below 10 million km and it has not been dismissed; the alerts are the
    alerts of the selected bodies.  The current time is a time value from
    which thirty days on is still one. *)
Theorem alert_selection (bodies : list CelestialBody) :
  clockInRange now ->
  (forall b,
     alertFilter now dismissedIds b = true <->
     (exists s t d,
        closeApproachDate b = Some s /\ s <> "" /\ Date_parse s = Some t /\
        withinNextThirtyDays now t /\
        distanceFromEarth b = Some d /\ (d <? 10)%float = true) /\
     ~ In (id b) dismissedIds) /\
  (forall l,
     alerts now dismissedIds lastViewedTime bodies = Normal l ->
     forall a, In a l <->
               exists b, In b bodies /\ alertFilter now dismissedIds b = true /\
                         toAlert now lastViewedTime b = Normal a).
Proof.
  intros [Hlo Hhi]. unfold thirtyDays, Date.maxTime in *. split.
  - intros b. unfold alertFilter, noCloseApproachDate, newDate, thirtyDaysFromNow,
      Date.TimeClip, withinNextThirtyDays, thirtyDays, ALERT_DAYS_THRESHOLD,
      ALERT_DISTANCE_THRESHOLD, Date.maxTime.
    replace (Z.abs (now + 30 * 24 * 60 * 60 * 1000) <=? 8640000000000000) with true
      by (symmetry; apply Z.leb_le; lia).
    destruct (closeApproachDate b) as [s|].
    2:{ split; [discriminate|]. intros [(s & t & d & H & _) _]. discriminate H. }
    destruct (String.eqb_spec s "") as [->|Hs].
    { split; [discriminate|]. intros [(s & t & d & H & Hne & _) _].
      inversion H; subst. now elim Hne. }
    destruct (Date_parse s) as [t|] eqn:Ht.
    2:{ cbn. split; [discriminate|].
        intros [(s' & t & d & H & _ & Hp & _) _]. inversion H; subst.
        rewrite Ht in Hp. discriminate Hp. }
    cbn [Date.gtb Date.leb].
    rewrite !andb_true_iff, negb_true_iff, Z.ltb_lt, Z.leb_le.
    rewrite <- not_true_iff_false, includes_In.
    split.
    + intros [[[H1 H2] H3] H4]. split; [|exact H4].
      destruct (distanceFromEarth b) as [d|]; [|discriminate H3].
      exists s, t, d. repeat split; assumption.
    + intros [(s' & t' & d & H & _ & Hp & [H1 H2] & Hd & Hlt) H4].
      inversion H; subst s'. rewrite Ht in Hp. inversion Hp; subst t'.
      rewrite Hd. cbn [JS.toNumber]. repeat split; assumption.
  - intros l Hl a. apply alerts_Normal in Hl as (mapped & Hm & ->).
    rewrite Array_sort_In. split.
    + intros Ha. destruct (Forall2_In_r _ _ _ _ Hm Ha) as (b & Hb & Hba).
      apply filter_In in Hb as [Hb Hf]. exists b. auto.
    + intros (b & Hb & Hf & Hba).
      destruct (Forall2_In_l _ _ _ b Hm) as (a' & Ha' & Hba').
      { apply filter_In. auto. }
      rewrite Hba in Hba'. inversion Hba'; subst. exact Ha'.
Qed.

(** C10. In the alerts list an alert never comes after one of lower risk, so
    every HIGH alert precedes every MEDIUM one and every MEDIUM alert every
    LOW one, and of two alerts of the same level the earlier in the list is
    at most as many days from its approach as the later. *)
Theorem alerts_sorted (bodies : list CelestialBody) (l : list Alert) :
  alerts now dismissedIds lastViewedTime bodies = Normal l ->
  forall (i j : nat) (a b : Alert),
    (i < j)%nat -> nth_error l i = Some a -> nth_error l j = Some b ->
    riskOrder (riskLevel b) <= riskOrder (riskLevel a) /\
    (riskLevel a = MEDIUM -> riskLevel b <> HIGH) /\
    (riskLevel a = LOW -> riskLevel b = LOW) /\
    (riskLevel a = riskLevel b ->
     exists x y, daysUntilApproach a = Some x /\ daysUntilApproach b = Some y /\
                 x <= y).
Proof.
  intros Hl i j a b Hij Hi Hj.
  apply alerts_Normal in Hl as (mapped & Hm & ->).
  assert (Hdays : Forall hasDays mapped).
  { apply Forall_forall. intros a' Ha'.
    destruct (Forall2_In_r _ _ _ _ Hm Ha') as (b' & Hb' & Hba).
    apply filter_In in Hb' as [_ Hf].
    destruct (alertFilter_date _ Hf) as [t Ht].
    eapply toAlert_days; eassumption. }
  pose proof (Array_sort_sorted compareAlerts hasDays alertBefore
                alertBefore_trans compareAlerts_le compareAlerts_gt mapped Hdays) as Hs.
  pose proof (StronglySorted_nth _ _ Hs i j a b Hij Hi Hj) as (x & y & Hx & Hy & H).
  assert (Hord : riskOrder (riskLevel b) <= riskOrder (riskLevel a)).
  { destruct H as [H|[E _]]; [lia|rewrite E; lia]. }
  split; [exact Hord|]. split; [|split].
  - intros Ea Eb. rewrite Ea, Eb in Hord. cbn in Hord. lia.
  - intros Ea. rewrite Ea in Hord. destruct (riskLevel b); cbn in Hord; try lia; reflexivity.
  - intros E. exists x, y. split; [assumption|]. split; [assumption|].
    destruct H as [H|[_ H]]; [rewrite E in H; lia|exact H].
Qed.

End NotificationFacts.

(* ================================================================== *)
(** * The statements at sample inputs                                  *)
(* ================================================================== *)

Section Samples.
#[local] Existing Instance SampleHost.host.

Lemma score_is_sum_of_factors_witness :
  exists r, calculateRiskScore (Some apophis) = Normal r /\
            (score r = sumScores (factors r) /\ 0 <= score r <= 100).
Proof.
  eexists. split; [vm_compute; reflexivity|].
  apply (score_is_sum_of_factors (Some apophis)). vm_compute. reflexivity.
Defined.

Lemma level_matches_score_witness :
  exists r, calculateRiskScore (Some itokawa) = Normal r /\
            score r = 65 /\ level r = MEDIUM /\
            (level r = MEDIUM <-> 31 <= score r < 66).
Proof.
  eexists. split; [vm_compute; reflexivity|].
  split; [reflexivity|]. split; [reflexivity|].
  apply (level_matches_score itokawa). vm_compute. reflexivity.
Defined.

Lemma nonnegative_inputs_total_witness :
  (0 <=? 203.8)%float = true /\ (0 <=? 19.34)%float = true /\
  (0 <=? 0.28)%float = true /\
  exists r, calculateRiskScore (Some vesta) = Normal r /\
            15 <= score r <= 100 /\ 20 <= score r.
Proof.
  split; [reflexivity|]. split; [reflexivity|]. split; [reflexivity|].
  apply (nonnegative_inputs_total vesta 203.8 19.34 0.28); reflexivity.
Defined.

Lemma score_monotone_witness :
  exists r1 r2 r3 r4,
    calculateRiskScore (Some apophis) = Normal r1 /\
    calculateRiskScore (Some (apophisWith 5.6 30.7 0.08)) = Normal r2 /\
    calculateRiskScore (Some (apophisWith 0.31 24.4 0.08)) = Normal r3 /\
    calculateRiskScore (Some (apophisWith 0.31 30.7 0.03)) = Normal r4 /\
    closerThan apophis (apophisWith 5.6 30.7 0.08) /\
    fasterThan apophis (apophisWith 0.31 24.4 0.08) /\
    largerThan apophis (apophisWith 0.31 30.7 0.03) /\
    (factorScore r2 0 <= factorScore r1 0 /\ score r2 <= score r1) /\
    (factorScore r3 1 <= factorScore r1 1 /\ score r3 <= score r1) /\
    (factorScore r4 2 <= factorScore r1 2 /\ score r4 <= score r1).
Proof.
  assert (Hc : closerThan apophis (apophisWith 5.6 30.7 0.08)).
  { split; [reflexivity|]. split; [reflexivity|].
    exists 0.31%float, 5.6%float. repeat split. }
  assert (Hf : fasterThan apophis (apophisWith 0.31 24.4 0.08)).
  { split; [reflexivity|]. split; [reflexivity|].
    exists 30.7%float, 24.4%float. repeat split. }
  assert (Hl : largerThan apophis (apophisWith 0.31 30.7 0.03)).
  { split; [reflexivity|]. split; [reflexivity|].
    exists 0.08%float, 0.03%float. repeat split. }
  do 4 eexists.
  split; [vm_compute; reflexivity|]. split; [vm_compute; reflexivity|].
  split; [vm_compute; reflexivity|]. split; [vm_compute; reflexivity|].
  split; [exact Hc|]. split; [exact Hf|]. split; [exact Hl|].
  split; [|split].
  - refine (proj1 (score_monotone apophis _ _ _ _ _) Hc); vm_compute; reflexivity.
  - refine (proj1 (proj2 (score_monotone apophis _ _ _ _ _)) Hf); vm_compute; reflexivity.
  - refine (proj2 (proj2 (score_monotone apophis _ _ _ _ _)) Hl); vm_compute; reflexivity.
Defined.

(** C5, as the specification states it, fails: without a radius the size
    explanation shows "NaN", not "unknown". *)
Lemma missing_radius_counterexample :
  radius apophisNoRadius = None /\
  exists r f,
    calculateRiskScore (Some apophisNoRadius) = Normal r /\
    nth_error (factors r) 2 = Some f /\
    f_name f = "Size" /\
    f_explanation f
    = "TINY object (~NaNm diameter) - Minimal threat, likely to disintegrate on entry" /\
    containsText (f_explanation f) "unknown" = false.
Proof.
  split; [reflexivity|]. do 2 eexists.
  split; [vm_compute; reflexivity|].
  split; [reflexivity|]. repeat split.
Qed.

Lemma missing_radius_assessment_witness :
  radius apophisNoRadius = None /\
  exists r f,
    calculateRiskScore (Some apophisNoRadius) = Normal r /\
    estimatedDiameterOf apophisNoRadius = nan /\
    List.length (factors r) = 3%nat /\
    nth_error (factors r) 2 = Some f /\
    f_score f = 5 /\
    f_explanation f
    = "TINY object (~NaNm diameter) - Minimal threat, likely to disintegrate on entry" /\
    containsText (f_explanation f) "unknown" = false.
Proof.
  split; [reflexivity|].
  apply (missing_radius_assessment apophisNoRadius 0.31 30.7); reflexivity.
Defined.

Lemma apophis_like_assessment_witness :
  exists r, calculateRiskScore (Some apophis) = Normal r /\
            map f_score (factors r) = [40; 25; 18] /\
            estimatedDiameterOf apophis = 0.16%float /\ (0.15 <? 0.16)%float = true /\
            score r = 83 /\ level r = HIGH.
Proof. apply (apophis_like_assessment apophis); reflexivity. Defined.

Lemma alert_selection_witness :
  clockInRange sampleNow /\
  (alertFilter sampleNow ["asteroid-itokawa"] apophis = true <->
   (exists s t d,
      closeApproachDate apophis = Some s /\ s <> "" /\ Date_parse s = Some t /\
      withinNextThirtyDays sampleNow t /\
      distanceFromEarth apophis = Some d /\ (d <? 10)%float = true) /\
   ~ In (id apophis) ["asteroid-itokawa"]) /\
  alertFilter sampleNow ["asteroid-itokawa"] apophis = true /\
  alertFilter sampleNow ["asteroid-itokawa"] itokawa = false /\
  alertFilter sampleNow ["asteroid-itokawa"] bennu = false.
Proof.
  assert (Hclock : clockInRange sampleNow) by (vm_compute; split; discriminate).
  split; [exact Hclock|].
  split; [|repeat split].
  exact (proj1 (alert_selection sampleNow ["asteroid-itokawa"] None celestialBodies Hclock)
           apophis).
Defined.

Lemma risk_trend_band_witness :
  exists t, getRiskTrend (Some apophis) celestialBodies = Normal t /\
            trend t = ABOVE_AVERAGE /\ current t = 83 /\
            exists cur rs,
              calculateRiskScore (Some apophis) = Normal cur /\
              mapM (fun b => calculateRiskScore (Some b)) celestialBodies = Normal rs /\
              let mean := (JS.ofZ (totalScore rs)
                           / JS.ofZ (Z.of_nat (List.length celestialBodies)))%float in
              let delta := (JS.ofZ (score cur) - mean)%float in
              current t = score cur /\
              (trend t = ABOVE_AVERAGE <-> (15 <? delta)%float = true) /\
              (trend t = BELOW_AVERAGE <-> (delta <? -15)%float = true) /\
              (trend t = AVERAGE <->
               (15 <? delta)%float = false /\ (delta <? -15)%float = false).
Proof.
  eexists. split; [vm_compute; reflexivity|].
  split; [reflexivity|]. split; [reflexivity|].
  apply (risk_trend_band (Some apophis) celestialBodies). vm_compute. reflexivity.
Defined.

Lemma alerts_sorted_witness :
  exists l a b,
    alerts sampleNow [] None celestialBodies = Normal l /\
    map objectId l = ["asteroid-apophis"; "asteroid-2023xy"; "asteroid-itokawa"] /\
    (1 < 2)%nat /\ nth_error l 1 = Some a /\ nth_error l 2 = Some b /\
    riskOrder (riskLevel b) <= riskOrder (riskLevel a) /\
    (riskLevel a = MEDIUM -> riskLevel b <> HIGH) /\
    (riskLevel a = LOW -> riskLevel b = LOW) /\
    (riskLevel a = riskLevel b ->
     exists x y, daysUntilApproach a = Some x /\ daysUntilApproach b = Some y /\
                 x <= y).
Proof.
  let v := eval vm_compute in (alerts sampleNow [] None celestialBodies) in
  match v with
  | Normal ?l =>
      assert (Hl : alerts sampleNow [] None celestialBodies = Normal l)
        by (vm_compute; reflexivity);
      exists l
  end.
  do 2 eexists. split; [exact Hl|].
  split; [reflexivity|]. split; [repeat constructor|].
  split; [reflexivity|]. split; [reflexivity|].
  apply (alerts_sorted sampleNow [] None celestialBodies _ Hl 1%nat 2%nat);
    [repeat constructor|reflexivity|reflexivity].
Defined.

End Samples.

(* ================================================================== *)
(** * More on binary64 order and subtraction                           *)
(* ================================================================== *)

Module FloatMore.

Lemma nan_spec (x : float) : Prim2SF x = S754_nan -> x = nan.
Proof.
  intros H. rewrite <- (SF2Prim_Prim2SF x), H. reflexivity.
Qed.

Lemma sub_nan_r (x : float) : (x - nan)%float = nan.
Proof.
  apply nan_spec. rewrite sub_spec.
  change (Prim2SF nan) with S754_nan.
  destruct (Prim2SF x) as [s|s| |s m e]; try destruct s; reflexivity.
Qed.

Lemma div_nan_r (x : float) : (x / nan)%float = nan.
Proof.
  apply nan_spec. rewrite div_spec.
  change (Prim2SF nan) with S754_nan.
  destruct (Prim2SF x) as [s|s| |s m e]; try destruct s; reflexivity.
Qed.

Lemma shr_1_m (r : shr_record) : 0 <= shr_m r -> shr_m (shr_1 r) = Z.div2 (shr_m r).
Proof.
  destruct r as [m rr ss]. cbn [shr_m]. intros H.
  destruct m as [|[p|p|]|p]; try reflexivity. lia.
Qed.

Lemma shr_m_iter (n : positive) (r : shr_record) :
  0 <= shr_m r -> shr_m (iter_pos shr_1 n r) = Z.shiftr (shr_m r) (Zpos n).
Proof.
  revert r. induction n as [n IH|n IH|]; intros r Hr; cbn [iter_pos].
  - assert (H1 : 0 <= shr_m (shr_1 r)) by (rewrite shr_1_m by assumption; now apply Z.div2_nonneg).
    assert (H2 : 0 <= shr_m (iter_pos shr_1 n (shr_1 r)))
      by (rewrite IH by assumption; now apply Z.shiftr_nonneg).
    rewrite IH, IH, shr_1_m by assumption.
    rewrite Z.div2_spec, !Z.shiftr_shiftr by lia. f_equal. lia.
  - assert (H2 : 0 <= shr_m (iter_pos shr_1 n r))
      by (rewrite IH by assumption; now apply Z.shiftr_nonneg).
    rewrite IH, IH by assumption.
    rewrite Z.shiftr_shiftr by lia. f_equal. lia.
  - rewrite shr_1_m by assumption. apply Z.div2_spec.
Qed.

Lemma digits2_bounds (p : positive) :
  2 ^ (Zpos (digits2_pos p) - 1) <= Zpos p < 2 ^ Zpos (digits2_pos p).
Proof.
  assert (E : digits2_pos p = Pos.size p) by (induction p; cbn; congruence).
  rewrite E. split.
  - pose proof (Pos.size_le p) as Hle.
    apply Pos2Z.pos_le_pos in Hle. rewrite Pos2Z.inj_pow in Hle.
    change (Zpos p~0) with (2 * Zpos p) in Hle.
    replace (Zpos (Pos.size p)) with (Z.succ (Zpos (Pos.size p) - 1)) in Hle by lia.
    rewrite Z.pow_succ_r in Hle by lia. lia.
  - pose proof (Pos.size_gt p) as Hgt.
    apply Pos2Z.pos_lt_pos in Hgt. now rewrite Pos2Z.inj_pow in Hgt.
Qed.

Lemma digits2_of_bounds (p : positive) (n : Z) :
  2 ^ (n - 1) <= Zpos p < 2 ^ n -> 1 <= n -> Zpos (digits2_pos p) = n.
Proof.
  intros [Hlo Hhi] Hn. pose proof (digits2_bounds p) as [Blo Bhi].
  assert (Zpos (digits2_pos p) - 1 < n).
  { apply (Z.pow_lt_mono_r_iff 2); lia. }
  assert (n - 1 < Zpos (digits2_pos p)).
  { apply (Z.pow_lt_mono_r_iff 2); lia. }
  lia.
Qed.

Lemma shr_nonpos (mrs : shr_record) (e n : Z) : n <= 0 -> shr mrs e n = (mrs, e).
Proof. destruct n; [reflexivity|lia|reflexivity]. Qed.

Lemma round_nearest_even_range (m : Z) (l : location) :
  m <= round_nearest_even m l <= m + 1.
Proof.
  unfold round_nearest_even. destruct l as [|[]]; try lia.
  destruct (Z.even m); lia.
Qed.

Lemma binary_round_aux_signed (s : bool) (M : positive) (e : Z) :
  -1074 <= e -> SFsigned s (binary_round_aux prec emax s (Zpos M) e loc_Exact).
Proof.
  intros He. unfold binary_round_aux, shr_fexp. cbn [Zdigits2 shr_record_of_loc].
  pose proof (digits2_bounds M) as [Mlo Mhi].
  set (d := Zpos (digits2_pos M)) in *.
  destruct (Z.le_gt_cases d 53) as [Hd|Hd].
  - rewrite shr_nonpos by (unfold fexp, SpecFloat.emin, prec, emax; lia).
    cbn [shr_m loc_of_shr_record round_nearest_even Zdigits2 shr_record_of_loc].
    fold d.
    rewrite shr_nonpos by (unfold fexp, SpecFloat.emin, prec, emax; lia).
    cbn [shr_m]. destruct (e <=? emax - prec); [right; eauto|left; reflexivity].
  - assert (Hn : fexp prec emax (d + e) - e = d - 53)
      by (unfold fexp, SpecFloat.emin, prec, emax; lia).
    rewrite Hn. assert (Hp : exists p, d - 53 = Zpos p).
    { destruct (d - 53) as [|p|p] eqn:E; try lia. eauto. }
    destruct Hp as [p Hp]. rewrite Hp. cbn [shr].
    set (r1 := iter_pos shr_1 p _).
    assert (Hr1 : shr_m r1 = Z.shiftr (Zpos M) (Zpos p))
      by (apply shr_m_iter; cbn; lia).
    rewrite Z.shiftr_div_pow2 in Hr1 by lia.
    assert (Hpow : 2 ^ (d - 1) = 2 ^ 52 * 2 ^ Zpos p).
    { rewrite <- Z.pow_add_r by lia. f_equal. lia. }
    assert (Hpow' : 2 ^ d = 2 ^ 53 * 2 ^ Zpos p).
    { rewrite <- Z.pow_add_r by lia. f_equal. lia. }
    assert (Hpp : 0 < 2 ^ Zpos p) by (apply Z.pow_pos_nonneg; lia).
    assert (B1 : 2 ^ 52 <= shr_m r1 < 2 ^ 53).
    { rewrite Hr1. split.
      - apply Z.div_le_lower_bound; lia.
      - apply Z.div_lt_upper_bound; lia. }
    pose proof (round_nearest_even_range (shr_m r1) (loc_of_shr_record r1)) as B2.
    set (m2 := round_nearest_even (shr_m r1) (loc_of_shr_record r1)) in *.
    change (2 ^ 52) with 4503599627370496 in *.
    change (2 ^ 53) with 9007199254740992 in *.
    destruct m2 as [|q|q] eqn:Em2; try lia.
    cbn [Zdigits2].
    pose proof (digits2_bounds q) as [Qlo Qhi].
    set (dq := Zpos (digits2_pos q)) in *.
    assert (Hdq : dq = 53 \/ dq = 54).
    { assert (52 < dq).
      { apply (Z.pow_lt_mono_r_iff 2); [lia|lia|].
        change (2 ^ 52) with 4503599627370496. lia. }
      assert (dq - 1 < 54).
      { apply (Z.pow_lt_mono_r_iff 2); [lia|lia|].
        change (2 ^ 54) with 18014398509481984. lia. }
      lia. }
    destruct Hdq as [Hdq|Hdq].
    + rewrite shr_nonpos by (unfold fexp, SpecFloat.emin, prec, emax; lia).
      cbn [shr_m]. destruct (_ <=? _); [right; eauto|left; reflexivity].
    + replace (fexp prec emax (dq + (e + Zpos p)) - (e + Zpos p)) with 1
        by (unfold fexp, SpecFloat.emin, prec, emax; lia).
      cbn [shr iter_pos]. rewrite shr_1_m by (cbn; lia). cbn [shr_m].
      assert (Hq : 0 < Z.div2 (Zpos q)).
      { rewrite Z.div2_div. apply Z.div_str_pos. lia. }
      destruct (Z.div2 (Zpos q)) as [|q'|q'] eqn:Eq; try lia.
      destruct (_ <=? _); [right; eauto|left; reflexivity].
Qed.

Lemma iter_xO_pow (m d : positive) : Zpos (Pos.iter xO m d) = Zpos m * 2 ^ Zpos d.
Proof.
  induction d as [|d IH] using Pos.peano_ind.
  - cbn [Pos.iter]. rewrite Z.pow_1_r. lia.
  - rewrite Pos.iter_succ, Pos2Z.inj_xO, IH, Pos2Z.inj_succ, Z.pow_succ_r by lia. lia.
Qed.

Lemma shl_align_value (m : positive) (e e' : Z) :
  e' <= e ->
  Zpos (fst (shl_align m e e')) = Zpos m * 2 ^ (e - e') /\ snd (shl_align m e e') = e'.
Proof.
  intros H. unfold shl_align. destruct (e' - e) as [|d|d] eqn:E; try lia.
  - cbn [fst snd]. replace (e - e') with 0 by lia. cbn. lia.
  - cbn [fst snd]. rewrite iter_xO_pow. replace (e - e') with (Zpos d) by lia. lia.
Qed.

Lemma binary_round_signed (s : bool) (m : positive) (e : Z) :
  -1074 <= e -> SFsigned s (binary_round prec emax s m e).
Proof.
  intros He. unfold binary_round.
  set (fe := fexp prec emax (Zpos (digits2_pos m) + e)).
  assert (Hfe : -1074 <= fe) by (unfold fe, fexp, SpecFloat.emin, prec, emax; lia).
  destruct (shl_align m e fe) as [mz ez] eqn:E.
  apply binary_round_aux_signed.
  unfold shl_align in E. destruct (fe - e) as [|d|d] eqn:E'; inversion E; subst; lia.
Qed.

Lemma binary_normalize_sign (D e : Z) :
  -1074 <= e ->
  SFltb (S754_zero false) (binary_normalize prec emax D e false) = (0 <? D).
Proof.
  intros He. destruct D as [|p|p]; cbn [binary_normalize].
  - reflexivity.
  - destruct (binary_round_signed false p e He) as [->|(m & e' & ->)]; reflexivity.
  - destruct (binary_round_signed true p e He) as [->|(m & e' & ->)]; reflexivity.
Qed.

Lemma bounded_cases (m : positive) (e : Z) :
  bounded prec emax m e = true ->
  -1074 <= e /\ Zpos m < 2 ^ 53 /\ (e = -1074 \/ 2 ^ 52 <= Zpos m).
Proof.
  unfold bounded, canonical_mantissa, fexp, SpecFloat.emin, prec, emax.
  intros H. apply andb_true_iff in H as [H1 H2].
  apply Z.eqb_eq in H1. pose proof (digits2_bounds m) as [Blo Bhi].
  assert (Zpos (digits2_pos m) <= 53) by lia.
  split; [lia|]. split.
  - eapply Z.lt_le_trans; [exact Bhi|]. apply Z.pow_le_mono_r; lia.
  - destruct (Z.eq_dec e (-1074)) as [E|E]; [left; exact E|right].
    replace (Zpos (digits2_pos m)) with 53 in Blo by lia. exact Blo.
Qed.

Lemma SFsub_sign (x y : spec_float) :
  valid_binary x = true -> valid_binary y = true ->
  x <> S754_nan -> y <> S754_nan ->
  SFltb (S754_zero false) (SF64sub x y) = SFltb y x.
Proof.
  destruct x as [sx|sx| |sx mx ex], y as [sy|sy| |sy my ey];
    cbn [valid_binary]; intros Hx Hy Nx Ny; try congruence;
    try (destruct sx, sy; reflexivity).
  apply bounded_cases in Hx as (Lx & Ux & Nx').
  apply bounded_cases in Hy as (Ly & Uy & Ny').
  { unfold SF64sub, SFsub.
    rewrite binary_normalize_sign by lia.
    destruct (shl_align_value mx ex (Z.min ex ey) ltac:(lia)) as [-> _].
    destruct (shl_align_value my ey (Z.min ex ey) ltac:(lia)) as [-> _].
    change (2 ^ 53) with 9007199254740992 in *.
    change (2 ^ 52) with 4503599627370496 in *.
    unfold SFltb, SFcompare.
    change (Pos.compare_cont Eq) with Pos.compare.
    destruct (Z.compare_spec ey ex) as [E|E|E].
    + subst ey. rewrite Z.min_id, Z.sub_diag. change (2 ^ 0) with 1.
      destruct sx, sy; cbn [cond_Zopp CompOpp];
        destruct (Pos.compare_spec my mx) as [E|E|E]; cbn [CompOpp];
        subst; try (apply Z.ltb_lt; lia); apply Z.ltb_ge; lia.
    + rewrite Z.min_r by lia. rewrite Z.sub_diag. change (2 ^ 0) with 1.
      assert (Hp : 2 <= 2 ^ (ex - ey)).
      { change 2 with (2 ^ 1) at 1. apply Z.pow_le_mono_r; lia. }
      assert (Hm : 4503599627370496 <= Zpos mx) by lia.
      destruct sx, sy; cbn [cond_Zopp];
        try (apply Z.ltb_lt; nia); apply Z.ltb_ge; nia.
    + rewrite Z.min_l by lia. rewrite Z.sub_diag. change (2 ^ 0) with 1.
      assert (Hp : 2 <= 2 ^ (ey - ex)).
      { change 2 with (2 ^ 1) at 1. apply Z.pow_le_mono_r; lia. }
      assert (Hm : 4503599627370496 <= Zpos my) by lia.
      destruct sx, sy; cbn [cond_Zopp];
        try (apply Z.ltb_lt; nia); apply Z.ltb_ge; nia. }
Qed.

Lemma binary_normalize_sign_neg (D e : Z) :
  -1074 <= e ->
  SFltb (binary_normalize prec emax D e false) (S754_zero false) = (D <? 0).
Proof.
  intros He. destruct D as [|p|p]; cbn [binary_normalize].
  - reflexivity.
  - destruct (binary_round_signed false p e He) as [->|(m & e' & ->)]; reflexivity.
  - destruct (binary_round_signed true p e He) as [->|(m & e' & ->)]; reflexivity.
Qed.

Lemma SFsub_sign_neg (x y : spec_float) :
  valid_binary x = true -> valid_binary y = true ->
  x <> S754_nan -> y <> S754_nan ->
  SFltb (SF64sub x y) (S754_zero false) = SFltb x y.
Proof.
  destruct x as [sx|sx| |sx mx ex], y as [sy|sy| |sy my ey];
    cbn [valid_binary]; intros Hx Hy Nx Ny; try congruence;
    try (destruct sx, sy; reflexivity).
  apply bounded_cases in Hx as (Lx & Ux & Nx').
  apply bounded_cases in Hy as (Ly & Uy & Ny').
  { unfold SF64sub, SFsub.
    rewrite binary_normalize_sign_neg by lia.
    destruct (shl_align_value mx ex (Z.min ex ey) ltac:(lia)) as [-> _].
    destruct (shl_align_value my ey (Z.min ex ey) ltac:(lia)) as [-> _].
    change (2 ^ 53) with 9007199254740992 in *.
    change (2 ^ 52) with 4503599627370496 in *.
    unfold SFltb, SFcompare.
    change (Pos.compare_cont Eq) with Pos.compare.
    destruct (Z.compare_spec ex ey) as [E|E|E].
    + subst ey. rewrite Z.min_id, Z.sub_diag. change (2 ^ 0) with 1.
      destruct sx, sy; cbn [cond_Zopp CompOpp];
        destruct (Pos.compare_spec mx my) as [E|E|E]; cbn [CompOpp];
        subst; try (apply Z.ltb_lt; lia); apply Z.ltb_ge; lia.
    + rewrite Z.min_l by lia. rewrite Z.sub_diag. change (2 ^ 0) with 1.
      assert (Hp : 2 <= 2 ^ (ey - ex)).
      { change 2 with (2 ^ 1) at 1. apply Z.pow_le_mono_r; lia. }
      assert (Hm : 4503599627370496 <= Zpos my) by lia.
      destruct sx, sy; cbn [cond_Zopp];
        try (apply Z.ltb_lt; nia); apply Z.ltb_ge; nia.
    + rewrite Z.min_r by lia. rewrite Z.sub_diag. change (2 ^ 0) with 1.
      assert (Hp : 2 <= 2 ^ (ex - ey)).
      { change 2 with (2 ^ 1) at 1. apply Z.pow_le_mono_r; lia. }
      assert (Hm : 4503599627370496 <= Zpos mx) by lia.
      destruct sx, sy; cbn [cond_Zopp];
        try (apply Z.ltb_lt; nia); apply Z.ltb_ge; nia. }
Qed.

Ltac compare_cases :=
  repeat match goal with
         | |- context [Z.compare ?a ?b] => destruct (Z.compare_spec a b)
         | H : context [Z.compare ?a ?b] |- _ => destruct (Z.compare_spec a b)
         | |- context [Pos.compare ?a ?b] => destruct (Pos.compare_spec a b)
         | H : context [Pos.compare ?a ?b] |- _ => destruct (Pos.compare_spec a b)
         end;
  cbn [CompOpp] in *; subst; try discriminate; try reflexivity; try lia.

Lemma SFleb_trans (x y z : spec_float) :
  SFleb x y = true -> SFleb y z = true -> SFleb x z = true.
Proof.
  unfold SFleb, SFcompare.
  destruct x as [sx|sx| |sx mx ex], y as [sy|sy| |sy my ey], z as [sz|sz| |sz mz ez];
    try discriminate;
    try destruct sx; try destruct sy; try destruct sz;
    try discriminate; try reflexivity;
    change (Pos.compare_cont Eq) with Pos.compare;
    intros H1 H2; compare_cases.
Qed.

Lemma SFleb_total (x y : spec_float) :
  x <> S754_nan -> y <> S754_nan -> SFltb y x = false -> SFleb x y = true.
Proof.
  unfold SFleb, SFltb, SFcompare.
  destruct x as [sx|sx| |sx mx ex], y as [sy|sy| |sy my ey];
    try congruence;
    try destruct sx; try destruct sy;
    try discriminate; try reflexivity;
    change (Pos.compare_cont Eq) with Pos.compare;
    intros _ _ H; compare_cases.
Qed.

Lemma SFleb_refl_of (x y : spec_float) : SFleb x y = true -> SFeqb x x = true.
Proof.
  unfold SFleb, SFeqb, SFcompare.
  destruct x as [sx|sx| |sx mx ex], y as [sy|sy| |sy my ey];
    try discriminate; try destruct sx; try reflexivity;
    change (Pos.compare_cont Eq) with Pos.compare;
    rewrite Z.compare_refl, Pos.compare_refl; reflexivity.
Qed.

Lemma not_nan_spec (x : float) : (x =? x)%float = true -> Prim2SF x <> S754_nan.
Proof. rewrite eqb_spec. intros H E. rewrite E in H. discriminate H. Qed.

(** The sign of a difference of two numbers is the order of the numbers. *)
Lemma sub_pos_iff (x y : float) :
  (x =? x)%float = true -> (y =? y)%float = true ->
  (0 <? x - y)%float = (y <? x)%float.
Proof.
  intros Hx Hy. rewrite !ltb_spec, sub_spec.
  change (Prim2SF 0) with (S754_zero false).
  apply SFsub_sign; auto using Prim2SF_valid, not_nan_spec.
Qed.

Lemma sub_neg_iff (x y : float) :
  (x =? x)%float = true -> (y =? y)%float = true ->
  (x - y <? 0)%float = (x <? y)%float.
Proof.
  intros Hx Hy. rewrite !ltb_spec, sub_spec.
  change (Prim2SF 0) with (S754_zero false).
  apply SFsub_sign_neg; auto using Prim2SF_valid, not_nan_spec.
Qed.

Lemma leb_trans (x y z : float) :
  (x <=? y)%float = true -> (y <=? z)%float = true -> (x <=? z)%float = true.
Proof. rewrite !leb_spec. apply SFleb_trans. Qed.

Lemma leb_total (x y : float) :
  (x =? x)%float = true -> (y =? y)%float = true ->
  (y <? x)%float = false -> (x <=? y)%float = true.
Proof.
  intros Hx Hy. rewrite ltb_spec, leb_spec.
  apply SFleb_total; auto using not_nan_spec.
Qed.

Lemma leb_not_nan (x y : float) : (x <=? y)%float = true -> (x =? x)%float = true.
Proof. rewrite leb_spec, eqb_spec. apply SFleb_refl_of. Qed.

End FloatMore.

(* ================================================================== *)
(** * Further facts on the risk score                                  *)
(* ================================================================== *)

Section RiskScoreMore.
Context {host : Host}.

Lemma distanceRisk_absent (b : CelestialBody) :
  distanceFromEarth b = None -> distanceRisk b = Throw TypeError.
Proof. intros H. unfold distanceRisk. rewrite H. reflexivity. Qed.

Lemma velocityRisk_absent (b : CelestialBody) :
  velocity b = None -> velocityRisk b = Throw TypeError.
Proof. intros H. unfold velocityRisk. rewrite H. reflexivity. Qed.

Lemma Exn_unique (e : Exn) : e = TypeError.
Proof. destruct e. reflexivity. Qed.

Lemma calculateRiskScore_Throw_absent (b : CelestialBody) (e : Exn) :
  calculateRiskScore (Some b) = Throw e ->
  distanceFromEarth b = None \/ velocity b = None.
Proof.
  intros He.
  destruct (distanceFromEarth b) as [d|] eqn:Hd; [|left; reflexivity].
  destruct (velocity b) as [v|] eqn:Hv; [|right; reflexivity].
  destruct (calculateRiskScore_defined b d v Hd Hv) as [r Hr].
  rewrite Hr in He. discriminate He.
Qed.

Lemma calculateRiskScore_absent_Throw (b : CelestialBody) :
  distanceFromEarth b = None \/ velocity b = None ->
  calculateRiskScore (Some b) = Throw TypeError.
Proof.
  intros H. unfold calculateRiskScore.
  destruct (distanceFromEarth b) as [d|] eqn:Hd.
  - destruct H as [H|H]; [discriminate H|].
    destruct (distanceRisk_defined b d Hd) as [de ->]. cbn [bind].
    rewrite (velocityRisk_absent b H). reflexivity.
  - rewrite (distanceRisk_absent b Hd). reflexivity.
Qed.

(** X1. The call on a body throws exactly when the distance or the velocity
    is absent, and what it throws is a [TypeError]; an absent radius, name
    or date never makes it throw. *)
Theorem calculateRiskScore_throws_iff (b : CelestialBody) :
  (exists e, calculateRiskScore (Some b) = Throw e) <->
  distanceFromEarth b = None \/ velocity b = None.
Proof.
  split.
  - intros [e He]. exact (calculateRiskScore_Throw_absent b e He).
  - intros H. exists TypeError. exact (calculateRiskScore_absent_Throw b H).
Qed.

Lemma factors_shape (b : CelestialBody) (r : RiskAssessment) :
  calculateRiskScore (Some b) = Normal r ->
  map f_max (factors r) = [40; 35; 25] /\
  map f_percentage (factors r)
  = map (fun f => percentageOf (f_score f) (f_max f)) (factors r) /\
  r_color r = snd (fst (classifyScore (score r))) /\
  explanation r = snd (classifyScore (score r)).
Proof.
  unfold calculateRiskScore.
  destruct (distanceRisk b) as [[ds de]|]; [|discriminate].
  destruct (velocityRisk b) as [[vs ve]|]; [|discriminate].
  cbn [bind].
  destruct (sizeRisk (estimatedDiameterOf b)) as [ss se].
  destruct (classifyScore _) as [[lv co] ex] eqn:Hc.
  intros H. inversion H; subst r; clear H.
  cbn [score factors r_color explanation].
  split; [reflexivity|]. split; [reflexivity|].
  change (0 + ds) with ds in Hc. rewrite Hc. split; reflexivity.
Qed.

Lemma distanceBucket_values (d : float) : In (distanceBucket d) [40; 30; 20; 10].
Proof.
  unfold distanceBucket.
  repeat match goal with |- context [if ?c then _ else _] => destruct c end;
    cbn; tauto.
Qed.

Lemma velocityBucket_values (v : float) : In (velocityBucket v) [35; 25; 15; 5].
Proof.
  unfold velocityBucket.
  repeat match goal with |- context [if ?c then _ else _] => destruct c end;
    cbn; tauto.
Qed.

Lemma sizeBucket_values (x : float) : In (sizeBucket x) [25; 18; 10; 5].
Proof.
  unfold sizeBucket.
  repeat match goal with |- context [if ?c then _ else _] => destruct c end;
    cbn; tauto.
Qed.

(** X2. An assessment of a body has exactly the three factors Distance,
    Velocity and Size, in this order, with the maxima 40, 35 and 25, which
    add up to 100; each factor's score is positive and at most its
    maximum. *)
Theorem factors_within_maxima (b : CelestialBody) (r : RiskAssessment) :
  calculateRiskScore (Some b) = Normal r ->
  map f_name (factors r) = ["Distance"; "Velocity"; "Size"] /\
  map f_max (factors r) = [40; 35; 25] /\
  fold_right Z.add 0 (map f_max (factors r)) = 100 /\
  Forall (fun f => 0 < f_score f <= f_max f) (factors r).
Proof.
  intros H. pose proof (factors_shape b r H) as (Hmax & _).
  apply calculateRiskScore_Normal in H as (d & v & _ & _ & _ & Hsc & Hn & _).
  split; [exact Hn|]. split; [exact Hmax|]. split; [rewrite Hmax; reflexivity|].
  destruct (factors r) as [|f1 [|f2 [|f3 [|f4 l]]]]; try discriminate Hmax.
  cbn in Hmax, Hsc. inversion Hmax. inversion Hsc.
  pose proof (distanceBucket_range d). pose proof (velocityBucket_range v).
  pose proof (sizeBucket_range (estimatedDiameterOf b)).
  unfold estimatedDiameterOf in *.
  repeat constructor; lia.
Qed.

Lemma classifyScore_color (s : Z) :
  snd (fst (classifyScore s)) = levelColor (levelOf s).
Proof.
  unfold levelOf, classifyScore.
  destruct (66 <=? s); [reflexivity|]. destruct (31 <=? s); reflexivity.
Qed.

(** X3. Whatever the body, [null] included, the colour of an assessment is
    the colour of its level: magenta for HIGH, yellow for MEDIUM, cyan for
    LOW. *)
Theorem color_follows_level (body : option CelestialBody) (r : RiskAssessment) :
  calculateRiskScore body = Normal r -> r_color r = levelColor (level r).
Proof.
  destruct body as [b|].
  - intros H. pose proof (factors_shape b r H) as (_ & _ & Hc & _).
    apply calculateRiskScore_Normal in H as (_ & _ & _ & _ & _ & _ & _ & _ & Hl).
    rewrite Hc, Hl. apply classifyScore_color.
  - intros H. inversion H. reflexivity.
Qed.

(** X4. The score of a body is a multiple of 5 or ends in 3, so the
    thresholds 31 and 66 are never met exactly: a HIGH score is at least 70
    and a LOW score at most 30. *)
Theorem score_values (b : CelestialBody) (r : RiskAssessment) :
  calculateRiskScore (Some b) = Normal r ->
  reachableScore (score r) /\
  score r <> 31 /\ score r <> 66 /\
  (level r = HIGH -> 70 <= score r) /\
  (level r = LOW -> score r <= 30).
Proof.
  intros H.
  apply calculateRiskScore_Normal in H as (d & v & _ & _ & Hs & _ & _ & _ & Hl).
  rewrite Hl, Hs. clear Hl Hs.
  pose proof (distanceBucket_values d) as Hd.
  pose proof (velocityBucket_values v) as Hv.
  pose proof (sizeBucket_values (estimatedDiameterOf b)) as Hx.
  cbn [In] in Hd, Hv, Hx. unfold reachableScore.
  destruct Hd as [<-|[<-|[<-|[<-|[]]]]], Hv as [<-|[<-|[<-|[<-|[]]]]],
    Hx as [<-|[<-|[<-|[<-|[]]]]];
    cbn; repeat split; intros; try discriminate; try lia; auto.
Qed.

(** X5. On an empty collection the mean is [NaN]: the trend is AVERAGE, the
    average and the difference are [NaN], and the message is the one of the
    average range, for every body the score call returns on. *)
Theorem risk_trend_empty (body : option CelestialBody) (cur : RiskAssessment) :
  calculateRiskScore body = Normal cur ->
  getRiskTrend body []
  = Normal {| current := score cur; average := nan; difference := nan;
              trend := AVERAGE;
              message := "Within average risk range for tracked objects" |}.
Proof.
  intros H. unfold getRiskTrend. rewrite H. cbn [bind reduceM List.length].
  change (JS.ofZ 0 / JS.ofZ (Z.of_nat 0))%float with nan.
  rewrite (FloatMore.sub_nan_r (JS.ofZ (score cur))).
  reflexivity.
Qed.

End RiskScoreMore.

(* ================================================================== *)
(** * Sorting and filtering                                            *)
(* ================================================================== *)



Lemma mapM_Throw {A B : Type} (f : A -> Completion B) (l : list A) :
  (exists e, mapM f l = Throw e) <-> exists x e, In x l /\ f x = Throw e.
Proof.
  induction l as [|x l IH]; cbn [mapM In].
  - split; [intros [e H]; discriminate H|intros (x & e & [] & _)].
  - destruct (f x) as [y|e0] eqn:Hy; cbn [bind].
    + destruct (mapM f l) as [ys|e1]; cbn [bind].
      * split; [intros [e H]; discriminate H|].
        intros (z & e & [<-|Hz] & Hf); [rewrite Hy in Hf; discriminate Hf|].
        destruct (proj2 IH) as [e' He']; [eauto|discriminate He'].
      * split; [|eauto]. intros _.
        destruct (proj1 IH) as (z & e & Hz & Hf); eauto.
    + split; eauto.
Qed.

Section SortFilter.
Context {A : Type}.
Variable comparefn : A -> A -> option Z.
Variable P : A -> Prop.
Variable R : A -> A -> Prop.
Hypothesis R_trans : forall a b c, R a b -> R b c -> R a c.
Hypothesis R_le : forall a b, P a -> P b -> sortCompare comparefn a b <= 0 -> R a b.
Hypothesis R_gt : forall a b, P a -> P b -> 0 < sortCompare comparefn a b -> R b a.
Hypothesis R_cmp : forall a b, R a b -> sortCompare comparefn a b <= 0.
Variable q : A -> bool.




End SortFilter.

Lemma insertSorted_Permutation {A : Type} (comparefn : A -> A -> option Z) (x : A)
    (l : list A) :
  Permutation (x :: l) (insertSorted comparefn x l).
Proof.
  induction l as [|y l IH]; cbn [insertSorted]; [reflexivity|].
  destruct (sortCompare comparefn x y <=? 0); [reflexivity|].
  rewrite perm_swap. now constructor.
Qed.

Lemma Array_sort_Permutation {A : Type} (comparefn : A -> A -> option Z) (l : list A) :
  Permutation l (Array_sort comparefn l).
Proof.
  induction l as [|x l IH]; [reflexivity|].
  rewrite Array_sort_cons, <- insertSorted_Permutation. now constructor.
Qed.

Lemma sorted_prefix {A : Type} (R : A -> A -> Prop) (p : A -> bool) (l : list A) :
  (forall a b, R a b -> p b = true -> p a = true) ->
  StronglySorted R l ->
  l = (filter p l ++ filter (fun a => negb (p a)) l)%list.
Proof.
  intros Hp Hs. induction Hs as [|x l Hs IH Hx]; [reflexivity|].
  cbn [filter]. destruct (p x) eqn:Hpx; cbn [negb app].
  - now rewrite <- IH.
  - assert (Hnone : filter p l = []).
    { destruct (filter p l) as [|z t] eqn:Hf; [reflexivity|].
      assert (Hz : In z (filter p l)) by (rewrite Hf; now left).
      apply filter_In in Hz as [Hz Hpz]. rewrite Forall_forall in Hx.
      rewrite (Hp x z (Hx z Hz) Hpz) in Hpx. discriminate Hpx. }
    rewrite Hnone in *. cbn [app] in *. now rewrite <- IH.
Qed.

(* ================================================================== *)
(** * Further facts on the alerts and the hook                         *)
(* ================================================================== *)





Lemma ceilDays_range (x : Z) :
  0 < x <= thirtyDays ->
  exists n, ceilDays (Some x) = Some n /\ 1 <= n <= 30.
Proof.
  unfold thirtyDays, ceilDays. intros H. eexists. split; [reflexivity|].
  change (1000 * 60 * 60 * 24) with 86400000.
  pose proof (Z.div_mod (- x) 86400000 ltac:(lia)).
  pose proof (Z.mod_pos_bound (- x) 86400000 ltac:(lia)). lia.
Qed.

Section HookFacts.
Context {host : Host}.

Lemma alertFilter_true (now : Z) (dismissed : list string) (b : CelestialBody) :
  alertFilter now dismissed b = true ->
  exists t d,
    newDate (closeApproachDate b) = Some t /\ now < t <= now + thirtyDays /\
    distanceFromEarth b = Some d /\ (d <? 10)%float = true /\
    includes dismissed (id b) = false.
Proof.
  unfold alertFilter, thirtyDaysFromNow, Date.TimeClip, thirtyDays,
    ALERT_DAYS_THRESHOLD, ALERT_DISTANCE_THRESHOLD.
  destruct (noCloseApproachDate b); [discriminate|].
  destruct (newDate (closeApproachDate b)) as [t|]; [|discriminate].
  destruct (Z.abs _ <=? Date.maxTime); cbn [Date.gtb Date.leb].
  2:{ rewrite andb_false_r. discriminate. }
  rewrite !andb_true_iff, Z.ltb_lt, Z.leb_le, negb_true_iff.
  intros [[[H1 H2] H3] H4].
  destruct (distanceFromEarth b) as [d|]; [|discriminate H3].
  exists t, d. repeat split; assumption.
Qed.


Lemma toAlert_Normal (now : Z) (viewed : option Date.t) (b : CelestialBody) (a : Alert) :
  toAlert now viewed b = Normal a ->
  exists r,
    calculateRiskScore (Some b) = Normal r /\
    a_id a = "alert-" ++ id b /\ objectId a = id b /\ objectName a = name b /\
    approachDate a = newDate (closeApproachDate b) /\
    daysUntilApproach a = ceilDays (Date.sub (newDate (closeApproachDate b)) (Some now)) /\
    a_distanceFromEarth a = distanceFromEarth b /\ a_velocity a = velocity b /\
    riskLevel a = level r /\ riskScore a = score r /\ riskColor a = r_color r /\
    isNew a = match viewed with
              | None => true
              | Some v => Date.gtb (newDate (closeApproachDate b)) v
              end /\
    createdAt a = Date.toISOString now.
Proof.
  unfold toAlert. destruct (calculateRiskScore (Some b)) as [r|]; [|discriminate].
  cbn [bind]. intros H. inversion H; subst a; clear H. exists r.
  cbn. repeat split.
Qed.

Lemma alerts_mapM (now : Z) (dismissed : list string) (viewed : option Date.t)
    (bodies : list CelestialBody) (l : list Alert) :
  alerts now dismissed viewed bodies = Normal l ->
  exists mapped,
    mapM (toAlert now viewed) (filter (alertFilter now dismissed) bodies) = Normal mapped /\
    Forall hasDays mapped /\ l = Array_sort compareAlerts mapped.
Proof.
  unfold alerts. destruct (mapM _ _) as [mapped|] eqn:Hm; [|discriminate].
  cbn [bind]. intros H. inversion H. exists mapped.
  split; [reflexivity|]. split; [|reflexivity].
  apply Forall_forall. intros a Ha.
  destruct (Forall2_In_r _ _ _ _ (mapM_Normal _ _ _ Hm) Ha) as (b & Hb & Hba).
  apply filter_In in Hb as [_ Hf].
  destruct (alertFilter_date _ _ _ Hf) as [t Ht].
  eapply toAlert_days; eassumption.
Qed.

Lemma alerts_sorted_strongly (now : Z) (dismissed : list string) (viewed : option Date.t)
    (bodies : list CelestialBody) (l : list Alert) :
  alerts now dismissed viewed bodies = Normal l -> StronglySorted alertBefore l.
Proof.
  intros H. apply alerts_mapM in H as (mapped & _ & Hd & ->).
  apply (Array_sort_sorted compareAlerts hasDays alertBefore
           alertBefore_trans compareAlerts_le compareAlerts_gt mapped Hd).
Qed.



(** X6. Every alert of the list is the alert of a body that passed the
    selection: its id is "alert-" followed by the object id, the object is
    not dismissed, the approach date is valid and after the current time,
    the day count is between 1 and 30, the distance is a number below 10,
    the risk score is between 30 and 100, and level and colour are those of
    the score. *)
Theorem alerts_invariants (now : Z) (dismissed : list string) (viewed : option Date.t)
    (bodies : list CelestialBody) (l : list Alert) :
  alerts now dismissed viewed bodies = Normal l ->
  Forall (fun a =>
            a_id a = "alert-" ++ objectId a /\
            ~ In (objectId a) dismissed /\
            (exists b, In b bodies /\ objectId a = id b /\ objectName a = name b) /\
            (exists t, approachDate a = Some t /\ now < t <= now + thirtyDays) /\
            (exists n, daysUntilApproach a = Some n /\ 1 <= n <= 30) /\
            (exists d, a_distanceFromEarth a = Some d /\ (d <? 10)%float = true) /\
            30 <= riskScore a <= 100 /\
            riskLevel a = levelOf (riskScore a) /\
            riskColor a = levelColor (riskLevel a) /\
            createdAt a = Date.toISOString now) l.
Proof.
  intros H. apply alerts_mapM in H as (mapped & Hm & _ & ->).
  apply Forall_forall. intros a Ha. rewrite Array_sort_In in Ha.
  destruct (Forall2_In_r _ _ _ _ (mapM_Normal _ _ _ Hm) Ha) as (b & Hb & Hba).
  apply filter_In in Hb as [Hb Hf].
  apply alertFilter_true in Hf as (t & d & Ht & Hrange & Hd & Hlt & Hdis).
  apply toAlert_Normal in Hba
    as (r & Hr & Hid & Hobj & Hname & Hdate & Hdays & Hdist & _ & Hlv & Hsc & Hco & _ & Hcr).
  rewrite Hid, Hobj, Hname, Hdate, Hdays, Hdist, Hlv, Hsc, Hco, Hcr, Ht, Hd.
  split; [reflexivity|]. split.
  { intros Hin. apply includes_In in Hin. rewrite Hin in Hdis. discriminate Hdis. }
  split; [exists b; auto|]. split; [exists t; auto|]. split.
  { cbn [Date.sub]. apply ceilDays_range. lia. }
  split; [exists d; auto|].
  pose proof (factors_shape b r Hr) as (_ & _ & Hcol & _).
  apply calculateRiskScore_Normal in Hr
    as (d' & v & Hd' & _ & Hs & _ & _ & _ & Hl).
  rewrite Hd in Hd'. inversion Hd'; subst d'.
  rewrite classifyScore_color, <- Hl in Hcol.
  split; [|split; [exact Hl|split; [exact Hcol|reflexivity]]].
  rewrite Hs.
  pose proof (velocityBucket_range v). pose proof (sizeBucket_range (estimatedDiameterOf b)).
  assert (20 <= distanceBucket d <= 40); [|lia].
  pose proof (FloatOrder.ltb_leb_trans d 10 50 Hlt eq_refl) as H50.
  unfold distanceBucket. rewrite H50.
  destruct (d <? 0.5)%float; [lia|]. destruct (d <? 5)%float; lia.
Qed.

Lemma alerts_Throw_velocity (now : Z) (dismissed : list string) (viewed : option Date.t)
    (bodies : list CelestialBody) (e : Exn) :
  alerts now dismissed viewed bodies = Throw e ->
  exists b, In b bodies /\ alertFilter now dismissed b = true /\ velocity b = None.
Proof.
  unfold alerts. intros He.
  destruct (mapM _ _) as [mapped|e'] eqn:Hm; [discriminate He|].
  destruct (proj1 (mapM_Throw _ _) (ex_intro _ e' Hm)) as (b & e0 & Hb & Hba).
  apply filter_In in Hb as [Hb Hf]. exists b. split; [exact Hb|]. split; [exact Hf|].
  unfold toAlert in Hba.
  destruct (calculateRiskScore (Some b)) as [r|e1] eqn:Hr; [discriminate Hba|].
  destruct (calculateRiskScore_Throw_absent b e1 Hr) as [Hd|Hv]; [|exact Hv].
  apply alertFilter_true in Hf as (_ & d & _ & _ & Hd' & _). congruence.
Qed.

(** X7. The alerts computation throws exactly when a body that passes the
    selection has no velocity. *)
Theorem alerts_throw_iff (now : Z) (dismissed : list string) (viewed : option Date.t)
    (bodies : list CelestialBody) :
  (exists e, alerts now dismissed viewed bodies = Throw e) <->
  exists b, In b bodies /\ alertFilter now dismissed b = true /\ velocity b = None.
Proof.
  split.
  - intros [e He]. exact (alerts_Throw_velocity _ _ _ _ _ He).
  - intros (b & Hb & Hf & Hv).
    destruct (proj2 (mapM_Throw (toAlert now viewed)
                       (filter (alertFilter now dismissed) bodies))) as [e He].
    { exists b, TypeError. split; [apply filter_In; auto|].
      unfold toAlert. rewrite (calculateRiskScore_absent_Throw b (or_intror Hv)).
      reflexivity. }
    exists e. unfold alerts. rewrite He. reflexivity.
Qed.



(** X10. The counts by level partition the alerts: the total is the sum of
    the HIGH, MEDIUM and LOW counts, and the unread count is at most the
    total. *)
Theorem stats_partition (st : HookState) (l : list Alert) :
  s_total (stats st l)
  = (s_highPriority (stats st l) + s_mediumPriority (stats st l)
     + s_lowPriority (stats st l))%nat /\
  (s_unread (stats st l) <= s_total (stats st l))%nat /\
  s_dismissed (stats st l) = List.length (st_dismissedIds st).
Proof.
  cbn [stats s_total s_highPriority s_mediumPriority s_lowPriority s_unread s_dismissed].
  split; [|split; [|reflexivity]].
  - unfold highPriorityAlerts.
    induction l as [|a l IH]; [reflexivity|].
    cbn [filter List.length].
    set (h := filter (isLevel HIGH) l) in *. set (m := filter (isLevel MEDIUM) l) in *.
    set (w := filter (isLevel LOW) l) in *.
    unfold isLevel. destruct (riskLevel a); cbn [List.length]; lia.
  - unfold unreadCount. destruct (negb (st_hasViewedPanel st)); [lia|].
    apply filter_length_le.
Qed.

(** X11. The high-priority alerts are a prefix of the alerts list: the list
    is the HIGH alerts followed by alerts none of which is HIGH. *)
Theorem high_priority_prefix (now : Z) (st : HookState) (bodies : list CelestialBody)
    (l : list Alert) :
  hookAlerts now st bodies = Normal l ->
  exists rest,
    l = (highPriorityAlerts l ++ rest)%list /\
    Forall (fun a => riskLevel a <> HIGH) rest.
Proof.
  intros H. apply alerts_sorted_strongly in H.
  exists (filter (fun a => negb (isLevel HIGH a)) l). split.
  - apply (sorted_prefix alertBefore); [|exact H].
    intros a b (x & y & _ & _ & Hab) Hb. unfold isLevel in *.
    destruct (riskLevel b); try discriminate Hb.
    destruct Hab as [Hab|[-> _]]; [|reflexivity].
    destruct (riskLevel a); cbn in Hab; try lia; reflexivity.
  - apply Forall_forall. intros a Ha. apply filter_In in Ha as [_ Ha].
    unfold isLevel in Ha. intros E. rewrite E in Ha. discriminate Ha.
Qed.

(** X12. Viewing the panel does not lower the unread count: after
    [markAsViewed] at the time [t], in a render at any time from [t] on,
    every alert is marked new and the unread count is the number of
    alerts. *)
Theorem unread_after_viewing (t now : Z) (st : HookState) (bodies : list CelestialBody)
    (l : list Alert) :
  t <= now ->
  hookAlerts now (markAsViewed t st) bodies = Normal l ->
  Forall (fun a => isNew a = true) l /\
  unreadCount (st_hasViewedPanel (markAsViewed t st)) l = List.length l.
Proof.
  intros Ht H. unfold hookAlerts in H.
  cbn [markAsViewed st_dismissedIds st_lastViewedTime st_hasViewedPanel] in *.
  assert (Hnew : Forall (fun a => isNew a = true) l).
  { apply alerts_mapM in H as (mapped & Hm & _ & ->).
    apply Forall_forall. intros a Ha. rewrite Array_sort_In in Ha.
    destruct (Forall2_In_r _ _ _ _ (mapM_Normal _ _ _ Hm) Ha) as (b & Hb & Hba).
    apply filter_In in Hb as [_ Hf].
    apply alertFilter_true in Hf as (u & _ & Hu & [Hlt _] & _).
    apply toAlert_Normal in Hba as (_ & _ & _ & _ & _ & _ & _ & _ & _ & _ & _ & _ & -> & _).
    rewrite Hu. cbn [Date.gtb]. apply Z.ltb_lt. lia. }
  split; [exact Hnew|].
  unfold unreadCount. cbn [negb]. f_equal.
  clear H. induction Hnew as [|a l Ha _ IH]; [reflexivity|].
  cbn [filter]. rewrite Ha, IH. reflexivity.
Qed.

End HookFacts.

(* ================================================================== *)
(** * Units, distance filter, proximity order, upcoming approaches     *)
(* ================================================================== *)

(** X13. A unit outside km, LD and AU is a missing key of the conversion
    table: the converted distance is [NaN], whatever the distance. *)
Theorem convertDistance_unknown_unit (km : float) (unit : string) :
  unit <> "km" -> unit <> "LD" -> unit <> "AU" ->
  convertDistance km unit = nan.
Proof.
  intros H1 H2 H3. unfold convertDistance, conversions.
  destruct (String.eqb_spec unit "km"); [contradiction|].
  destruct (String.eqb_spec unit "LD"); [contradiction|].
  destruct (String.eqb_spec unit "AU"); [contradiction|].
  cbn [JS.toNumber]. apply FloatMore.div_nan_r.
Qed.

Lemma proximityCompare_le (a b : CelestialBody) :
  hasDistance a -> hasDistance b ->
  sortCompare proximityCompare a b <= 0 -> notFarther a b.
Proof.
  unfold hasDistance, notFarther, sortCompare, proximityCompare, comparatorSign.
  set (x := JS.toNumber (distanceFromEarth a)).
  set (y := JS.toNumber (distanceFromEarth b)).
  intros Ha Hb.
  rewrite (FloatMore.sub_neg_iff _ _ Ha Hb), (FloatMore.sub_pos_iff _ _ Ha Hb).
  destruct (x <? y)%float eqn:H1.
  - intros _. apply FloatOrder.ltb_leb, H1.
  - destruct (y <? x)%float eqn:H2; [intros H; lia|].
    intros _. apply FloatMore.leb_total; assumption.
Qed.

Lemma proximityCompare_gt (a b : CelestialBody) :
  hasDistance a -> hasDistance b ->
  0 < sortCompare proximityCompare a b -> notFarther b a.
Proof.
  unfold hasDistance, notFarther, sortCompare, proximityCompare, comparatorSign.
  set (x := JS.toNumber (distanceFromEarth a)).
  set (y := JS.toNumber (distanceFromEarth b)).
  intros Ha Hb.
  rewrite (FloatMore.sub_neg_iff _ _ Ha Hb), (FloatMore.sub_pos_iff _ _ Ha Hb).
  destruct (x <? y)%float eqn:H1; [intros H; lia|].
  destruct (y <? x)%float eqn:H2.
  - intros _. apply FloatOrder.ltb_leb, H2.
  - destruct (x - y =? x - y)%float; intros H; lia.
Qed.

Lemma notFarther_trans (a b c : CelestialBody) :
  notFarther a b -> notFarther b c -> notFarther a c.
Proof. apply FloatMore.leb_trans. Qed.


Lemma sortByProximity_sorted_aux (bodies : list CelestialBody) :
  Forall hasDistance bodies ->
  forall (i j : nat) (a b : CelestialBody),
    (i < j)%nat ->
    nth_error (sortByProximity bodies) i = Some a ->
    nth_error (sortByProximity bodies) j = Some b ->
    notFarther a b.
Proof.
  intros H. apply StronglySorted_nth.
  apply (Array_sort_sorted proximityCompare hasDistance notFarther
           notFarther_trans proximityCompare_le proximityCompare_gt bodies H).
Qed.

(** X15. When every distance is a number, the proximity order is ascending
    in the distance from Earth: a body earlier in the result is at most as
    far as any later one. *)
Theorem sortByProximity_sorted (bodies : list CelestialBody) :
  Forall hasDistance bodies ->
  forall (i j : nat) (a b : CelestialBody),
    (i < j)%nat ->
    nth_error (sortByProximity bodies) i = Some a ->
    nth_error (sortByProximity bodies) j = Some b ->
    notFarther a b.
Proof. apply sortByProximity_sorted_aux. Qed.

(** X16. The bodies the dashboard lists, the proximity order of the distance
    filter, are exactly the bodies whose distance is a number at most the
    limit, in ascending order of distance; a body without a distance is
    never listed. *)
Theorem filtered_proximity_list (bodies : list CelestialBody) (maxDistance : float)
    (unit : string) :
  let listed := sortByProximity (filterByDistance bodies maxDistance unit) in
  (forall b, In b listed <->
             In b bodies /\
             exists d, distanceFromEarth b = Some d /\
                       (d <=? maxDistanceKm maxDistance unit)%float = true) /\
  (forall (i j : nat) (a b : CelestialBody),
     (i < j)%nat -> nth_error listed i = Some a -> nth_error listed j = Some b ->
     notFarther a b).
Proof.
  cbn zeta. split.
  - intros b. unfold sortByProximity. rewrite Array_sort_In.
    unfold filterByDistance. rewrite filter_In. split.
    + intros [Hb Hd]. split; [exact Hb|].
      destruct (distanceFromEarth b) as [d|]; [exists d; auto|].
      cbn [JS.toNumber] in Hd. apply FloatMore.leb_not_nan in Hd. discriminate Hd.
    + intros [Hb (d & Hd & Hle)]. split; [exact Hb|]. rewrite Hd. exact Hle.
  - apply sortByProximity_sorted_aux.
    apply Forall_forall. intros b Hb. unfold filterByDistance in Hb.
    apply filter_In in Hb as [_ Hd]. eapply FloatMore.leb_not_nan, Hd.
Qed.

Lemma approachCompare_le (a b : Approach) :
  (exists x, ap_approachDate a = Some x) -> (exists y, ap_approachDate b = Some y) ->
  sortCompare approachCompare a b <= 0 -> notLater a b.
Proof.
  intros [x Hx] [y Hy]. unfold sortCompare, approachCompare. rewrite Hx, Hy.
  cbn [Date.sub]. intros H. exists x, y. repeat split; try assumption. lia.
Qed.

Lemma approachCompare_gt (a b : Approach) :
  (exists x, ap_approachDate a = Some x) -> (exists y, ap_approachDate b = Some y) ->
  0 < sortCompare approachCompare a b -> notLater b a.
Proof.
  intros [x Hx] [y Hy]. unfold sortCompare, approachCompare. rewrite Hx, Hy.
  cbn [Date.sub]. intros H. exists y, x. repeat split; try assumption. lia.
Qed.

Lemma notLater_trans (a b c : Approach) : notLater a b -> notLater b c -> notLater a c.
Proof.
  intros (x & y & Hx & Hy & H1) (y' & z & Hy' & Hz & H2).
  rewrite Hy in Hy'. inversion Hy'; subst y'.
  exists x, z. repeat split; try assumption. lia.
Qed.

Section UpcomingFacts.
Context {host : Host}.

(** X17. The upcoming approaches are the bodies with a close approach date
    that is valid and after the current time, each with that date, in
    ascending order of date; a body with no date, an empty or unreadable
    one, or a date not after the current time is left out. *)
Theorem upcoming_approaches (now : Z) (bodies : list CelestialBody) :
  let l := getUpcomingApproaches now bodies in
  (forall a, In a l <->
             In (ap_body a) bodies /\
             ap_approachDate a = newDate (closeApproachDate (ap_body a)) /\
             exists s t, closeApproachDate (ap_body a) = Some s /\ s <> "" /\
                         Date_parse s = Some t /\ now < t) /\
  (forall (i j : nat) (a b : Approach),
     (i < j)%nat -> nth_error l i = Some a -> nth_error l j = Some b ->
     notLater a b).
Proof.
  cbn zeta. unfold getUpcomingApproaches. split.
  - intros a. rewrite Array_sort_In, filter_In, in_map_iff. split.
    + intros [(b & <- & Hb) Hgt]. cbn [ap_body ap_approachDate] in *.
      apply filter_In in Hb as [Hb Hd]. split; [exact Hb|]. split; [reflexivity|].
      unfold noCloseApproachDate, newDate in *.
      destruct (closeApproachDate b) as [s|]; [|discriminate Hd].
      destruct (String.eqb_spec s ""); [discriminate Hd|].
      destruct (Date_parse s) as [t|] eqn:Ht; [|discriminate Hgt].
      cbn [Date.gtb] in Hgt. apply Z.ltb_lt in Hgt. exists s, t. auto.
    + intros (Hb & Hdate & s & t & Hs & Hne & Ht & Hlt).
      destruct a as [b d]. cbn [ap_body ap_approachDate] in *. subst d. split.
      * exists b. split; [reflexivity|]. apply filter_In. split; [exact Hb|].
        unfold noCloseApproachDate. rewrite Hs.
        destruct (String.eqb_spec s ""); [contradiction|reflexivity].
      * rewrite Hs. cbn [newDate]. rewrite Ht. cbn [Date.gtb]. now apply Z.ltb_lt.
  - apply StronglySorted_nth.
    apply (Array_sort_sorted approachCompare
             (fun a => exists x, ap_approachDate a = Some x) notLater
             notLater_trans approachCompare_le approachCompare_gt).
    apply Forall_forall. intros a Ha. apply filter_In in Ha as [_ Hgt].
    destruct (ap_approachDate a) as [x|]; [eauto|discriminate Hgt].
Qed.

End UpcomingFacts.

(* ================================================================== *)
(** * The session as a state machine                                   *)
(* ================================================================== *)

Lemma setItem_same (k v : string) (s : Storage) : setItem k v s k = Some v.
Proof. unfold setItem. now rewrite String.eqb_refl. Qed.

Lemma setItem_other (k k' v : string) (s : Storage) :
  String.eqb k' k = false -> setItem k v s k' = s k'.
Proof. unfold setItem. now intros ->. Qed.

Lemma removeItem_same (k : string) (s : Storage) : removeItem k s k = None.
Proof. unfold removeItem. now rewrite String.eqb_refl. Qed.

Lemma removeItem_other (k k' : string) (s : Storage) :
  String.eqb k' k = false -> removeItem k s k' = s k'.
Proof. unfold removeItem. now intros ->. Qed.

Lemma persisted_act (st : HookState) (a : Action) : persisted st -> persisted (act st a).
Proof.
  unfold persisted. intros [Hd Hv].
  assert (K1 : String.eqb "dismissedNotifications" "notificationsLastViewed" = false)
    by reflexivity.
  assert (K2 : String.eqb "notificationsLastViewed" "dismissedNotifications" = false)
    by reflexivity.
  destruct a as [now|alertId| |];
    cbn [act markAsViewed dismissNotification clearDismissed resetNotifications
         st_dismissedIds st_hasViewedPanel st_lastViewedTime st_localStorage].
  - rewrite setItem_same, (setItem_other _ _ _ _ K1). split; [exact Hd|].
    exists now. auto.
  - rewrite setItem_same, (setItem_other _ _ _ _ K2). split; [left; reflexivity|exact Hv].
  - rewrite removeItem_same, (removeItem_other _ _ _ K2). split; [right; auto|exact Hv].
  - rewrite removeItem_same, (removeItem_other _ _ _ K1), removeItem_same.
    split; [right; auto|auto].
Qed.

(** X18. Through any run of the hook's actions from a first visit, what
    local storage holds is what the state holds: the stored dismissed list
    is the JSON text of the dismissed ids (or absent when there are none),
    and the stored last-viewed time is the ISO text of the last viewed time
    (absent exactly when the panel has not been viewed). *)
Theorem session_persisted (actions : list Action) :
  persisted (fold_left act actions freshState).
Proof.
  assert (H : persisted freshState).
  { unfold persisted, freshState.
    cbn [st_localStorage st_dismissedIds st_lastViewedTime st_hasViewedPanel]. auto. }
  revert H. generalize freshState.
  induction actions as [|a actions IH]; intros st H; cbn [fold_left]; [exact H|].
  apply IH, persisted_act, H.
Qed.

(* ================================================================== *)
(** * Impact energy, the catalog and alert identifiers                 *)
(* ================================================================== *)

Lemma mul_nan_l (x : float) : (nan * x)%float = nan.
Proof.
  apply FloatMore.nan_spec. rewrite mul_spec.
  change (Prim2SF nan) with S754_nan. reflexivity.
Qed.

Lemma mul_nan_r (x : float) : (x * nan)%float = nan.
Proof.
  apply FloatMore.nan_spec. rewrite mul_spec.
  change (Prim2SF nan) with S754_nan.
  destruct (Prim2SF x) as [s|s| |s m e]; try destruct s; reflexivity.
Qed.

Lemma div_nan_l (x : float) : (nan / x)%float = nan.
Proof.
  apply FloatMore.nan_spec. rewrite div_spec.
  change (Prim2SF nan) with S754_nan. reflexivity.
Qed.

Lemma map_Forall2 {A B C : Type} (f : A -> C) (g : B -> C) (R : A -> B -> Prop)
    (l : list A) (l' : list B) :
  (forall x y, R x y -> g y = f x) -> Forall2 R l l' -> map g l' = map f l.
Proof.
  intros HR H. induction H as [|x y l l' Hxy _ IH]; [reflexivity|].
  cbn [map]. rewrite (HR x y Hxy), IH. reflexivity.
Qed.

Lemma filter_ids_NoDup (keep : CelestialBody -> bool) (bodies : list CelestialBody) :
  NoDup (map id bodies) -> NoDup (map id (filter keep bodies)).
Proof.
  intros H. induction bodies as [|b bodies IH]; cbn [map filter] in *; [exact H|].
  inversion H as [|? ? Hb Hrest]; subst.
  destruct (keep b); [|exact (IH Hrest)].
  cbn [map]. constructor; [|exact (IH Hrest)].
  rewrite in_map_iff. intros (b' & Hid & Hin).
  apply filter_In in Hin as [Hin _]. apply Hb. rewrite <- Hid. now apply in_map.
Qed.

Lemma NoDup_map_injective {A B : Type} (f : A -> B) (l : list A) :
  (forall x y, f x = f y -> x = y) -> NoDup l -> NoDup (map f l).
Proof.
  intros Hf H. induction H as [|x l Hx _ IH]; cbn [map]; constructor; [|exact IH].
  intros Hin. apply in_map_iff in Hin as (y & Hy & Hin).
  apply Hf in Hy. subst y. exact (Hx Hin).
Qed.

Lemma append_inj (p x y : string) : p ++ x = p ++ y -> x = y.
Proof.
  induction p as [|c p IH]; cbn [append]; intros H; [exact H|].
  inversion H. auto.
Qed.

Section CatalogAndIds.
Context {host : Host}.

(** X19. Where the radius is absent and [Math.pow] gives [NaN] on a [NaN]
    base, as ECMAScript requires, the impact energy is the text
    "NaN megatons", whatever the velocity. *)
Theorem impact_energy_without_radius (velocity : float) :
  Math_pow nan 3 = nan ->
  calculateImpactEnergy None velocity = "NaN megatons".
Proof.
  intros Hpow. unfold calculateImpactEnergy.
  change (JS.toNumber None / 8 * 1000)%float with nan.
  rewrite Hpow.
  repeat (rewrite mul_nan_r || rewrite mul_nan_l || rewrite div_nan_l).
  reflexivity.
Qed.

(** X20. On the catalog the application ships, the alerts computation
    completes at every time, for every dismissed list and every last viewing
    time, and on every host: no body of the catalog lacks a velocity. *)
Theorem catalog_alerts_defined (now : Z) (dismissed : list string)
    (viewed : option Date.t) :
  exists l, alerts now dismissed viewed celestialBodies = Normal l.
Proof.
  destruct (alerts now dismissed viewed celestialBodies) as [l|e] eqn:H;
    [exists l; reflexivity|].
  apply alerts_Throw_velocity in H as (b & Hb & _ & Hv).
  cbn [celestialBodies In] in Hb.
  repeat (destruct Hb as [<-|Hb]; [discriminate Hv|]). destruct Hb.
Qed.

(** X21. Where the bodies have distinct ids, the alerts have distinct ids
    and distinct object ids: no object is alerted twice. *)
Theorem alert_ids_unique (now : Z) (dismissed : list string) (viewed : option Date.t)
    (bodies : list CelestialBody) (l : list Alert) :
  NoDup (map id bodies) ->
  alerts now dismissed viewed bodies = Normal l ->
  NoDup (map objectId l) /\ NoDup (map a_id l).
Proof.
  intros Hnd H. apply alerts_mapM in H as (mapped & Hm & _ & ->).
  apply mapM_Normal in Hm.
  assert (Hobj : map objectId mapped
                 = map id (filter (alertFilter now dismissed) bodies)).
  { apply (map_Forall2 _ _ _ _ _ (fun b a Hba =>
             match toAlert_Normal now viewed b a Hba with
             | ex_intro _ r (conj _ (conj _ (conj Ho _))) => Ho
             end) Hm). }
  assert (Hid : map a_id mapped
                = map (fun b => "alert-" ++ id b)
                    (filter (alertFilter now dismissed) bodies)).
  { apply (map_Forall2 _ _ _ _ _ (fun b a Hba =>
             match toAlert_Normal now viewed b a Hba with
             | ex_intro _ r (conj _ (conj Hi _)) => Hi
             end) Hm). }
  pose proof (filter_ids_NoDup (alertFilter now dismissed) bodies Hnd) as Hf.
  split.
  - eapply Permutation_NoDup;
      [apply Permutation_map, Array_sort_Permutation|].
    rewrite Hobj. exact Hf.
  - eapply Permutation_NoDup;
      [apply Permutation_map, Array_sort_Permutation|].
    rewrite Hid, <- (map_map id (fun i => "alert-" ++ i)).
    apply NoDup_map_injective; [|exact Hf].
    intros x y Hxy. apply append_inj in Hxy. exact Hxy.
Qed.

End CatalogAndIds.

Section CatalogSamples.
#[local] Existing Instance SampleHost.host.

Lemma impact_energy_without_radius_witness :
  Math_pow nan 3 = nan /\ calculateImpactEnergy None 30.7 = "NaN megatons".
Proof.
  assert (H : Math_pow nan 3 = nan) by (vm_compute; reflexivity).
  split; [exact H|]. exact (impact_energy_without_radius 30.7 H).
Defined.

Lemma catalog_ids_distinct : NoDup (map id celestialBodies).
Proof.
  cbn. repeat (constructor; [cbn; intuition discriminate|]). constructor.
Defined.

Lemma alert_ids_unique_witness :
  exists l, alerts sampleNow [] None celestialBodies = Normal l /\
            NoDup (map objectId l) /\ NoDup (map a_id l).
Proof.
  let v := eval vm_compute in (alerts sampleNow [] None celestialBodies) in
  match v with
  | Normal ?l =>
      assert (Hl : alerts sampleNow [] None celestialBodies = Normal l)
        by (vm_compute; reflexivity);
      exists l; split; [exact Hl|];
      exact (alert_ids_unique sampleNow [] None celestialBodies l
               catalog_ids_distinct Hl)
  end.
Defined.

End CatalogSamples.

(* ================================================================== *)
(** * The further facts at sample inputs                               *)
(* ================================================================== *)

Section MoreSamples.
#[local] Existing Instance SampleHost.host.

Ltac compute_alerts now st bodies k :=
  let v := eval vm_compute in (hookAlerts now st bodies) in
  match v with
  | Normal ?l =>
      let H := fresh "Hl" in
      assert (H : hookAlerts now st bodies = Normal l) by (vm_compute; reflexivity);
      k l H
  end.

Lemma factors_within_maxima_witness :
  exists r, calculateRiskScore (Some apophis) = Normal r /\
            map f_name (factors r) = ["Distance"; "Velocity"; "Size"] /\
            map f_max (factors r) = [40; 35; 25] /\
            fold_right Z.add 0 (map f_max (factors r)) = 100 /\
            Forall (fun f => 0 < f_score f <= f_max f) (factors r).
Proof.
  eexists. split; [vm_compute; reflexivity|].
  apply (factors_within_maxima apophis). vm_compute. reflexivity.
Defined.

Lemma color_follows_level_witness :
  exists r, calculateRiskScore (Some vesta) = Normal r /\
            level r = MEDIUM /\ r_color r = levelColor (level r).
Proof.
  eexists. split; [vm_compute; reflexivity|]. split; [reflexivity|].
  apply (color_follows_level (Some vesta)). vm_compute. reflexivity.
Defined.

Lemma score_values_witness :
  exists r, calculateRiskScore (Some apophis) = Normal r /\
            score r = 83 /\
            (reachableScore (score r) /\ score r <> 31 /\ score r <> 66 /\
             (level r = HIGH -> 70 <= score r) /\ (level r = LOW -> score r <= 30)).
Proof.
  eexists. split; [vm_compute; reflexivity|]. split; [reflexivity|].
  apply (score_values apophis). vm_compute. reflexivity.
Defined.

Lemma risk_trend_empty_witness :
  exists cur, calculateRiskScore (Some apophis) = Normal cur /\
              getRiskTrend (Some apophis) []
              = Normal {| current := score cur; average := nan; difference := nan;
                          trend := AVERAGE;
                          message := "Within average risk range for tracked objects" |}.
Proof.
  eexists. split; [vm_compute; reflexivity|].
  apply (risk_trend_empty (Some apophis)). vm_compute. reflexivity.
Defined.

Lemma alerts_invariants_witness :
  exists l, alerts sampleNow ["asteroid-itokawa"] None celestialBodies = Normal l /\
            map objectId l = ["asteroid-apophis"; "asteroid-2023xy"] /\
            Forall (fun a => ~ In (objectId a) ["asteroid-itokawa"] /\
                             (exists n, daysUntilApproach a = Some n /\ 1 <= n <= 30) /\
                             30 <= riskScore a <= 100) l.
Proof.
  let v := eval vm_compute in (alerts sampleNow ["asteroid-itokawa"] None celestialBodies) in
  match v with
  | Normal ?l =>
      assert (Hl : alerts sampleNow ["asteroid-itokawa"] None celestialBodies = Normal l)
        by (vm_compute; reflexivity);
      exists l
  end.
  split; [exact Hl|]. split; [reflexivity|].
  eapply Forall_impl; [|exact (alerts_invariants _ _ _ _ _ Hl)].
  intros a (_ & H1 & _ & _ & H2 & _ & H3 & _). auto.
Defined.



Lemma high_priority_prefix_witness :
  exists l, hookAlerts sampleNow freshState celestialBodies = Normal l /\
            map objectId (highPriorityAlerts l) = ["asteroid-apophis"] /\
            exists rest, l = (highPriorityAlerts l ++ rest)%list /\
                         Forall (fun a => riskLevel a <> HIGH) rest.
Proof.
  compute_alerts sampleNow freshState celestialBodies
    ltac:(fun l H => exists l; split; [exact H|]; split; [reflexivity|];
                     exact (high_priority_prefix sampleNow freshState celestialBodies l H)).
Defined.

Lemma unread_after_viewing_witness :
  sampleNow - 1000 <= sampleNow /\
  exists l,
    hookAlerts sampleNow (markAsViewed (sampleNow - 1000) freshState) celestialBodies
    = Normal l /\
    List.length l = 3%nat /\
    Forall (fun a => isNew a = true) l /\
    unreadCount (st_hasViewedPanel (markAsViewed (sampleNow - 1000) freshState)) l
    = List.length l.
Proof.
  assert (Ht : sampleNow - 1000 <= sampleNow) by (vm_compute; discriminate).
  split; [exact Ht|].
  compute_alerts sampleNow (markAsViewed (sampleNow - 1000) freshState) celestialBodies
    ltac:(fun l H => exists l; split; [exact H|]; split; [reflexivity|];
                     exact (unread_after_viewing (sampleNow - 1000) sampleNow freshState
                              celestialBodies l Ht H)).
Defined.

Lemma convertDistance_unknown_unit_witness :
  "miles" <> "km" /\ "miles" <> "LD" /\ "miles" <> "AU" /\
  convertDistance 0.31 "miles" = nan.
Proof.
  assert (H1 : "miles" <> "km") by discriminate.
  assert (H2 : "miles" <> "LD") by discriminate.
  assert (H3 : "miles" <> "AU") by discriminate.
  split; [exact H1|]. split; [exact H2|]. split; [exact H3|].
  exact (convertDistance_unknown_unit 0.31 "miles" H1 H2 H3).
Defined.

Lemma sortByProximity_sorted_witness :
  Forall hasDistance celestialBodies /\
  nth_error (sortByProximity celestialBodies) 1 = Some itokawa /\
  nth_error (sortByProximity celestialBodies) 2 = Some asteroid2023xy /\
  notFarther itokawa asteroid2023xy.
Proof.
  assert (H : Forall hasDistance celestialBodies) by (repeat constructor).
  split; [exact H|].
  assert (H1 : nth_error (sortByProximity celestialBodies) 1 = Some itokawa)
    by (vm_compute; reflexivity).
  assert (H2 : nth_error (sortByProximity celestialBodies) 2 = Some asteroid2023xy)
    by (vm_compute; reflexivity).
  split; [exact H1|]. split; [exact H2|].
  exact (sortByProximity_sorted celestialBodies H 1%nat 2%nat itokawa asteroid2023xy
           ltac:(repeat constructor) H1 H2).
Defined.

End MoreSamples.
